(** * Water-Sim: the GPGPU height-field solver and its interaction controller

    A shallow embedding of [shaders.ts] (the four full-grid fragment
    shaders), [GPGPUWater.ts] (the ping-pong render targets and the passes
    run on them) and the gesture / physics part of [WaterEngine.ts].

    Number model.  GLSL [float] and JavaScript [number] are both embedded as
    the real numbers [R]: every arithmetic operator of the source is the
    exact operator on [R], so the theorems on them are statements about the
    formulas the program evaluates, not about rounding.  Integer-valued
    quantities (loop counters, texel indices) are [nat] or [Z].  Where a
    statement is about a stored height being the very same number after a
    pass, rounding decides it: the displacement pass is then taken on
    float32 texels, module [Float32]. *)

From Stdlib Require Import Reals Lra Lia ZArith List Bool.
From Stdlib Require String SpecFloat.
Import ListNotations.
Open Scope R_scope.

(** ** GLSL values and built-ins *)

Module GLSL.

Record vec2 := mkVec2 { v2x : R; v2y : R }.
Record vec3 := mkVec3 { v3x : R; v3y : R; v3z : R }.

(** A texel, [vec4 info]: [r] height, [g] velocity, [b],[a] the x and z
    components of the surface normal. *)
Record vec4 := mkVec4 { chan_r : R; chan_g : R; chan_b : R; chan_a : R }.

Definition add2 (p q : vec2) : vec2 := mkVec2 (v2x p + v2x q) (v2y p + v2y q).
Definition sub2 (p q : vec2) : vec2 := mkVec2 (v2x p - v2x q) (v2y p - v2y q).

(** Swizzle [v.xz]. *)
Definition xz (v : vec3) : vec2 := mkVec2 (v3x v) (v3z v).

(** [length(vec2)] and [length(vec3)]. *)
Definition length2 (p : vec2) : R := sqrt (v2x p * v2x p + v2y p * v2y p).
Definition length3 (v : vec3) : R :=
  sqrt (v3x v * v3x v + v3y v * v3y v + v3z v * v3z v).

Definition cross (p q : vec3) : vec3 :=
  mkVec3 (v3y p * v3z q - v3z p * v3y q)
         (v3z p * v3x q - v3x p * v3z q)
         (v3x p * v3y q - v3y p * v3x q).

Definition normalize (v : vec3) : vec3 :=
  mkVec3 (v3x v / length3 v) (v3y v / length3 v) (v3z v / length3 v).

(** [pow(x, y)]: GLSL leaves it undefined for [x < 0]; at [x = 0] with
    [y > 0] it is [0], elsewhere it is [exp (y * ln x)]. *)
Definition pow (x y : R) : R :=
  if Req_dec_T x 0 then 0 else Rpower x y.

(** Assignments to one channel of [info]. *)
Definition set_r (c : vec4) (h : R) : vec4 :=
  mkVec4 h (chan_g c) (chan_b c) (chan_a c).
Definition set_g (c : vec4) (v : R) : vec4 :=
  mkVec4 (chan_r c) v (chan_b c) (chan_a c).
Definition set_ba (c : vec4) (n : vec2) : vec4 :=
  mkVec4 (chan_r c) (chan_g c) (v2x n) (v2y n).

End GLSL.
Import GLSL.

(** ** Textures and sampling *)

(** The colour attachment of a [size] x [size] float render target: one
    texel per cell, column [i] and row [j]. *)
Definition Texture := nat -> nat -> vec4.

(** The interpolated [v_uv] of the fragment that covers cell [(i, j)] when
    the 2x2 plane is drawn over a [N] x [N] target: the cell's centre. *)
Definition fragCoord (N i j : nat) : vec2 :=
  mkVec2 ((INR i + 0.5) / INR N) ((INR j + 0.5) / INR N).

(** [texture2D] belongs to WebGL, not to the repository.  The passes rely
    on two facts about it, which every filter / wrap mode of WebGL has:
    a lookup at a cell's centre returns that cell, and a lookup anywhere in
    a texture whose height channel is constant returns that constant. *)
Class Sampler := {
  texture2D : nat -> Texture -> vec2 -> vec4;
  texture2D_texel : forall (N : nat) (t : Texture) (i j : nat),
    (i < N)%nat -> (j < N)%nat ->
    texture2D N t (fragCoord N i j) = t i j;
  texture2D_flat : forall (N : nat) (t : Texture) (c : R),
    (0 < N)%nat ->
    (forall i j, (i < N)%nat -> (j < N)%nat -> chan_r (t i j) = c) ->
    forall uv, chan_r (texture2D N t uv) = c
}.

(** Texel indices are clamped into the grid: [ClampToEdgeWrapping], the
    wrap mode three.js gives a [WebGLRenderTarget] unless told otherwise. *)
Definition clampIndex (N : nat) (z : Z) : nat :=
  Z.to_nat (Z.max 0 (Z.min (Z.of_nat N - 1) z)).

(** [NearestFilter]: the texel the coordinate falls in. *)
Definition nearestClamp (N : nat) (t : Texture) (uv : vec2) : vec4 :=
  t (clampIndex N (Zfloor (v2x uv * INR N)))
    (clampIndex N (Zfloor (v2y uv * INR N))).

(** Weighted sum of four texels, channel by channel. *)
Definition mix4 (k00 k10 k01 k11 : R) (a b c d : vec4) : vec4 :=
  mkVec4 (k00 * chan_r a + k10 * chan_r b + k01 * chan_r c + k11 * chan_r d)
         (k00 * chan_g a + k10 * chan_g b + k01 * chan_g c + k11 * chan_g d)
         (k00 * chan_b a + k10 * chan_b b + k01 * chan_b c + k11 * chan_b d)
         (k00 * chan_a a + k10 * chan_a b + k01 * chan_a c + k11 * chan_a d).

(** [LinearFilter], the default filter of a [WebGLRenderTarget]: bilinear
    blend of the four texels around the coordinate. *)
Definition linearClamp (N : nat) (t : Texture) (uv : vec2) : vec4 :=
  let x := v2x uv * INR N - 0.5 in
  let y := v2y uv * INR N - 0.5 in
  let i0 := Zfloor x in
  let j0 := Zfloor y in
  let fx := x - IZR i0 in
  let fy := y - IZR j0 in
  mix4 ((1 - fx) * (1 - fy)) (fx * (1 - fy)) ((1 - fx) * fy) (fx * fy)
       (t (clampIndex N i0) (clampIndex N j0))
       (t (clampIndex N (i0 + 1)) (clampIndex N j0))
       (t (clampIndex N i0) (clampIndex N (j0 + 1)))
       (t (clampIndex N (i0 + 1)) (clampIndex N (j0 + 1))).

(** [nearestClamp] is a sampler: the centre of cell [(i, j)] falls in
    texel [(i, j)], and every lookup lands on a texel of the grid. *)
Definition nearestSampler : Sampler.
Proof.
  refine {| texture2D := nearestClamp |}.
  - intros N t i j Hi Hj. unfold nearestClamp, fragCoord, clampIndex; simpl.
    assert (HN : INR N <> 0) by (apply not_0_INR; lia).
    replace ((INR i + 0.5) / INR N * INR N) with (INR i + 0.5)
      by (field; exact HN).
    replace ((INR j + 0.5) / INR N * INR N) with (INR j + 0.5)
      by (field; exact HN).
    assert (Hfl : forall k : nat, Zfloor (INR k + 0.5) = Z.of_nat k).
    { intros k. apply Zfloor_eq. rewrite <- INR_IZR_INZ. lra. }
    rewrite !Hfl. f_equal; lia.
  - intros N t c HN Hflat uv. unfold nearestClamp, clampIndex.
    apply Hflat; lia.
Defined.

(** [linearClamp] is a sampler: at a cell's centre the blend has weight 1
    on that cell, and the weights always add up to 1. *)
Definition linearSampler : Sampler.
Proof.
  refine {| texture2D := linearClamp |}.
  - intros N t i j Hi Hj. unfold linearClamp, fragCoord; cbn [v2x v2y].
    assert (HN : INR N <> 0) by (apply not_0_INR; lia).
    replace ((INR i + 0.5) / INR N * INR N - 0.5) with (INR i)
      by (field; exact HN).
    replace ((INR j + 0.5) / INR N * INR N - 0.5) with (INR j)
      by (field; exact HN).
    cbv zeta. rewrite !INR_IZR_INZ, !ZfloorZ.
    replace (clampIndex N (Z.of_nat i)) with i by (unfold clampIndex; lia).
    replace (clampIndex N (Z.of_nat j)) with j by (unfold clampIndex; lia).
    unfold mix4. destruct (t i j) as [h v nx nz]; cbn [chan_r chan_g chan_b chan_a].
    f_equal; ring.
  - intros N t c HN Hflat uv. unfold linearClamp, mix4; cbv zeta.
    cbn [chan_r].
    rewrite !Hflat by (unfold clampIndex; lia). ring.
Defined.

(** ** shaders.ts *)

Module Shaders.

Section WithSampler.
Context {S : Sampler}.

(** [const float PI = 3.141592653589793;] *)
Definition PI : R := 3141592653589793 / 1000000000000000.

(** [dropShaderFs]: [N] and [u_texture] together are the bound sampler. *)
Definition dropShaderFs (N : nat) (u_texture : Texture) (u_center : vec2)
    (u_radius u_strength : R) (v_uv : vec2) : vec4 :=
  let info := texture2D N u_texture v_uv in
  let drop := Rmax 0 (1 - length2 (sub2 u_center v_uv) / u_radius) in
  let drop := 0.5 - cos (drop * PI) * 0.5 in
  set_r info (chan_r info + drop * u_strength).

(** The local [drop] of [dropShaderFs] once both of its assignments are
    done, as a function of the fragment and of the uniforms. *)
Definition drop (v_uv u_center : vec2) (u_radius : R) : R :=
  let drop := Rmax 0 (1 - length2 (sub2 u_center v_uv) / u_radius) in
  0.5 - cos (drop * PI) * 0.5.

(** [updateShaderFs] *)
Definition updateShaderFs (N : nat) (u_texture : Texture) (u_delta : vec2)
    (u_damping : R) (v_uv : vec2) : vec4 :=
  let info := texture2D N u_texture v_uv in
  let dx := mkVec2 (v2x u_delta) 0 in
  let dy := mkVec2 0 (v2y u_delta) in
  let average :=
    (chan_r (texture2D N u_texture (sub2 v_uv dx)) +
     chan_r (texture2D N u_texture (add2 v_uv dx)) +
     chan_r (texture2D N u_texture (sub2 v_uv dy)) +
     chan_r (texture2D N u_texture (add2 v_uv dy))) * 0.25 in
  let info := set_g info (chan_g info + (average - chan_r info) * 2) in
  let info := set_g info (chan_g info * u_damping) in
  set_r info (chan_r info + chan_g info).

(** [normalShaderFs] *)
Definition normalShaderFs (N : nat) (u_texture : Texture) (u_delta : vec2)
    (v_uv : vec2) : vec4 :=
  let info := texture2D N u_texture v_uv in
  let dx := mkVec3 (v2x u_delta)
      (chan_r (texture2D N u_texture (add2 v_uv (mkVec2 (v2x u_delta) 0)))
       - chan_r info) 0 in
  let dy := mkVec3 0
      (chan_r (texture2D N u_texture (add2 v_uv (mkVec2 0 (v2y u_delta))))
       - chan_r info) (v2y u_delta) in
  set_ba info (xz (normalize (cross dy dx))).

(** [volumeInSphere], a function of the fragment's [v_uv] and of the
    uniform [u_radius]. *)
Definition volumeInSphere (u_radius : R) (v_uv : vec2) (center : vec3) : R :=
  let worldPos := mkVec3 (v2x v_uv * 2 - 1) 0 (v2y v_uv * 2 - 1) in
  let to_center_2d := sub2 (xz worldPos) (xz center) in
  let t := length2 to_center_2d / u_radius in
  let dy := exp (- GLSL.pow (t * 1.5) 6) in
  let ymin := Rmin 0 (v3y center - dy) in
  let ymax := Rmin (Rmax 0 (v3y center + dy)) (ymin + 2 * dy) in
  (ymax - ymin) * 0.1.

(** [sphereShaderFs] *)
Definition sphereShaderFs (N : nat) (u_texture : Texture)
    (u_oldCenter u_newCenter : vec3) (u_radius : R) (v_uv : vec2) : vec4 :=
  let info := texture2D N u_texture v_uv in
  let info := set_r info (chan_r info + volumeInSphere u_radius v_uv u_oldCenter) in
  set_r info (chan_r info - volumeInSphere u_radius v_uv u_newCenter).

End WithSampler.
End Shaders.

(** ** GPGPUWater.ts *)

Module GPGPUWater.

(** The simulation object.  [size] is the constructor argument, shared by
    both render targets and by the [u_delta] uniforms; [read] and [write]
    are [targets.read] and [targets.write]; [u_damping] is the uniform of
    [updateMat], the only uniform that outlives a call.  The other uniforms
    are assigned from the arguments at the start of every method. *)
Record t := mk {
  size : nat;
  read : Texture;
  write : Texture;
  u_damping : R
}.

(** [new GPGPUWater(renderer, size)]: two cleared targets, damping 0.995. *)
Definition create (size : nat) : t :=
  let blank : Texture := fun _ _ => mkVec4 0 0 0 0 in
  mk size blank blank 0.995.

(** [u_delta = new THREE.Vector2(1/size, 1/size)] *)
Definition u_delta (w : t) : vec2 :=
  mkVec2 (1 / INR (size w)) (1 / INR (size w)).

(** [render()]: draw the full-screen plane with the current material into
    [targets.write], one fragment per cell, then [targets.swap()]. *)
Definition render (fragment : vec2 -> vec4) (w : t) : t :=
  let drawn : Texture := fun i j => fragment (fragCoord (size w) i j) in
  mk (size w) drawn (read w) (u_damping w).

Section WithSampler.
Context {S : Sampler}.

Definition addDrop (x y radius strength : R) (w : t) : t :=
  render (Shaders.dropShaderFs (size w) (read w) (mkVec2 x y) radius strength) w.

Definition moveSphere (oldCenter newCenter : vec3) (radius : R) (w : t) : t :=
  render (Shaders.sphereShaderFs (size w) (read w) oldCenter newCenter radius) w.

Definition step (w : t) : t :=
  render (Shaders.updateShaderFs (size w) (read w) (u_delta w) (u_damping w)) w.

Definition setDamping (damping : R) (w : t) : t :=
  mk (size w) (read w) (write w) damping.

Definition updateNormals (w : t) : t :=
  render (Shaders.normalShaderFs (size w) (read w) (u_delta w)) w.

Definition getTexture (w : t) : Texture := read w.

End WithSampler.

(** The cell [(i, j)] of the current grid, and the named channels of the
    data model. *)
Definition cell (w : t) (i j : nat) : vec4 := read w i j.
Definition height (w : t) (i j : nat) : R := chan_r (cell w i j).
Definition velocity (w : t) (i j : nat) : R := chan_g (cell w i j).
Definition normalX (w : t) (i j : nat) : R := chan_b (cell w i j).
Definition normalZ (w : t) (i j : nat) : R := chan_a (cell w i j).

(** Normalised coordinates of the centre of cell [(i, j)]. *)
Definition cellUV (w : t) (i j : nat) : vec2 := fragCoord (size w) i j.

End GPGPUWater.

(** ** The parts of three.js the engine computes with *)

Module THREE.

(** [MathUtils.clamp(value, min, max)] *)
Definition clamp (value lo hi : R) : R := Rmax lo (Rmin hi value).

(** [MathUtils.lerp(x, y, t)] *)
Definition lerp (x y t : R) : R := (1 - t) * x + t * y.

(** [Vector2.distanceTo] and [Vector3.distanceTo] *)
Definition distanceTo2 (p q : vec2) : R := length2 (sub2 p q).
Definition distanceTo3 (p q : vec3) : R :=
  length3 (mkVec3 (v3x p - v3x q) (v3y p - v3y q) (v3z p - v3z q)).

(** [Vector2.lerp(v, alpha)], on a clone of the receiver. *)
Definition lerp2 (p v : vec2) (alpha : R) : vec2 :=
  mkVec2 (v2x p + (v2x v - v2x p) * alpha) (v2y p + (v2y v - v2y p) * alpha).

(** [Vector3.clamp(min, max)], [add] and [multiplyScalar]. *)
Definition clamp3 (p lo hi : vec3) : vec3 :=
  mkVec3 (clamp (v3x p) (v3x lo) (v3x hi))
         (clamp (v3y p) (v3y lo) (v3y hi))
         (clamp (v3z p) (v3z lo) (v3z hi)).
Definition add3 (p q : vec3) : vec3 :=
  mkVec3 (v3x p + v3x q) (v3y p + v3y q) (v3z p + v3z q).
Definition multiplyScalar (p : vec3) (s : R) : vec3 :=
  mkVec3 (v3x p * s) (v3y p * s) (v3z p * s).

End THREE.

(** ** WaterEngine.ts: gestures, sphere physics and the frame pipeline *)

Module WaterEngine.

(** The interaction and logic state of the engine, with the simulation it
    owns.  [controls_enabled] is [controls.enabled]; [sphere_position] is
    [sphere.position].  Rendering state is left out. *)
Record t := mk {
  waterSim : GPGPUWater.t;
  controls_enabled : bool;
  isDraggingSphere : bool;
  lastWaterInteractionPoint : option vec2;
  oldSpherePos : vec3;
  sphere_position : vec3;
  isPaused : bool;
  gravityEnabled : bool;
  sphereRadius : R;
  sphereVelocity : vec3;
  poolSize : R;
  poolHeight : R;
  windStrength : R;
  interactionStrength : R;
  waveSpeed : R;
  accumulatedWaveTime : R
}.

(** What the raycaster yields for one pointer event: the first hit of
    [intersectObject(sphere)], if any, and the [point] left by
    [ray.intersectPlane] for the water plane and for the drag plane. *)
Record PointerRay := mkRay {
  sphereHit : option vec3;
  waterPoint : vec3;
  dragPoint : vec3
}.

(** [new THREE.Vector2(point.x/poolSize + 0.5, 0.5 - point.z/poolSize)] *)
Definition pointUV (e : t) (point : vec3) : vec2 :=
  mkVec2 (v3x point / poolSize e + 0.5) (0.5 - v3z point / poolSize e).

(** [uv.x>=0 && uv.x<=1 && uv.y>=0 && uv.y<=1] *)
Definition inPool (uv : vec2) : bool :=
  if Rle_dec 0 (v2x uv) then
    if Rle_dec (v2x uv) 1 then
      if Rle_dec 0 (v2y uv) then
        if Rle_dec (v2y uv) 1 then true else false
      else false
    else false
  else false.

(** [currentUv.x<0 || currentUv.x>1 || currentUv.y<0 || currentUv.y>1] *)
Definition outOfPool (uv : vec2) : bool :=
  if Rlt_dec (v2x uv) 0 then true
  else if Rlt_dec 1 (v2x uv) then true
  else if Rlt_dec (v2y uv) 0 then true
  else if Rlt_dec 1 (v2y uv) then true
  else false.

(** One call [waterSim.addDrop(x, y, radius, strength)]. *)
Record Drop := mkDrop {
  drop_center : vec2;
  drop_radius : R;
  drop_strength : R
}.

(** The trail of [onPointerMove]: the values of [dist], [strength] and
    [segments], and the calls made by the [for] loop, in order. *)
Definition trailDist (last currentUv : vec2) : R :=
  THREE.distanceTo2 currentUv last.

Definition trailStrength (interactionStrength dist : R) : R :=
  Rmin interactionStrength (0.01 + dist * interactionStrength * 8).

Definition trailSegments (dist : R) : nat :=
  Z.to_nat (Z.max 1 (Zceil (dist / 0.015))).

Definition trailDrops (interactionStrength : R) (last currentUv : vec2)
    : list Drop :=
  let dist := trailDist last currentUv in
  let strength := trailStrength interactionStrength dist in
  let segments := trailSegments dist in
  map (fun i : nat =>
         let t := INR i / INR segments in
         mkDrop (THREE.lerp2 last currentUv t) 0.02 strength)
      (seq 0 segments).

(** [submergedRatio], as [animate] computes it from [r] and [y]. *)
Definition submergedRatio (r y : R) : R :=
  if Rlt_dec r y then 0
  else if Rlt_dec y (- r) then 1
  else THREE.clamp ((r - y) / (2 * r)) 0 1.

Definition GRAVITY : R := -0.012.
Definition BUOYANCY_MAX : R := 0.024.
Definition DRAG_AIR : R := 0.995.
Definition DRAG_WATER : R := 0.90.

(** The body of [if (!isDraggingSphere && gravityEnabled)]: new position
    and velocity of the sphere. *)
Definition spherePhysics (e : t) : vec3 * vec3 :=
  let v := sphereVelocity e in
  let v := mkVec3 (v3x v) (v3y v + GRAVITY) (v3z v) in
  let r := sphereRadius e in
  let y := v3y (sphere_position e) in
  let ratio := submergedRatio r y in
  let v := if Rlt_dec 0 ratio
           then mkVec3 (v3x v) (v3y v + BUOYANCY_MAX * ratio) (v3z v)
           else v in
  let drag := THREE.lerp DRAG_AIR DRAG_WATER ratio in
  let v := THREE.multiplyScalar v drag in
  let p := THREE.add3 (sphere_position e) v in
  let floorY := - poolHeight e + sphereRadius e in
  if Rlt_dec (v3y p) floorY then
    let p := mkVec3 (v3x p) floorY (v3z p) in
    if Rlt_dec (v3y v) 0
    then (p, mkVec3 (v3x v) (v3y v * -0.3) (v3z v))
    else (p, v)
  else (p, v).

Section WithSampler.
Context {S : Sampler}.

Definition applyDrop (w : GPGPUWater.t) (d : Drop) : GPGPUWater.t :=
  GPGPUWater.addDrop (v2x (drop_center d)) (v2y (drop_center d))
                     (drop_radius d) (drop_strength d) w.

Definition onPointerDown (ray : PointerRay) (e : t) : t :=
  match sphereHit ray with
  | Some _ =>
      mk (waterSim e) false true (lastWaterInteractionPoint e)
         (oldSpherePos e) (sphere_position e) (isPaused e) (gravityEnabled e)
         (sphereRadius e) (sphereVelocity e) (poolSize e) (poolHeight e)
         (windStrength e) (interactionStrength e) (waveSpeed e)
         (accumulatedWaveTime e)
  | None =>
      let uv := pointUV e (waterPoint ray) in
      if inPool uv then
        mk (GPGPUWater.addDrop (v2x uv) (v2y uv) 0.03 (interactionStrength e)
                               (waterSim e))
           false (isDraggingSphere e) (lastWaterInteractionPoint e)
           (oldSpherePos e) (sphere_position e) (isPaused e) (gravityEnabled e)
           (sphereRadius e) (sphereVelocity e) (poolSize e) (poolHeight e)
           (windStrength e) (interactionStrength e) (waveSpeed e)
           (accumulatedWaveTime e)
      else e
  end.

(** Assignment to [lastWaterInteractionPoint], and to it and the
    simulation together. *)
Definition setLast (e : t) (sim : GPGPUWater.t) (last : option vec2) : t :=
  mk sim (controls_enabled e) (isDraggingSphere e) last
     (oldSpherePos e) (sphere_position e) (isPaused e) (gravityEnabled e)
     (sphereRadius e) (sphereVelocity e) (poolSize e) (poolHeight e)
     (windStrength e) (interactionStrength e) (waveSpeed e)
     (accumulatedWaveTime e).

Definition onPointerMove (ray : PointerRay) (e : t) : t :=
  if isDraggingSphere e then
    let limit := poolSize e / 2 - sphereRadius e in
    let p := THREE.clamp3 (dragPoint ray)
               (mkVec3 (- limit) (- poolHeight e + sphereRadius e) (- limit))
               (mkVec3 limit 0.5 limit) in
    mk (waterSim e) (controls_enabled e) (isDraggingSphere e)
       (lastWaterInteractionPoint e) (oldSpherePos e) p (isPaused e)
       (gravityEnabled e) (sphereRadius e) (sphereVelocity e) (poolSize e)
       (poolHeight e) (windStrength e) (interactionStrength e) (waveSpeed e)
       (accumulatedWaveTime e)
  else
    match sphereHit ray with
    | Some _ => setLast e (waterSim e) None
    | None =>
        let currentUv := pointUV e (waterPoint ray) in
        if outOfPool currentUv then setLast e (waterSim e) None
        else
          match lastWaterInteractionPoint e with
          | Some last =>
              setLast e
                (fold_left applyDrop
                   (trailDrops (interactionStrength e) last currentUv)
                   (waterSim e))
                (Some currentUv)
          | None => setLast e (waterSim e) (Some currentUv)
          end
    end.

Definition onPointerUp (e : t) : t :=
  mk (waterSim e) true false None
     (oldSpherePos e) (sphere_position e) (isPaused e) (gravityEnabled e)
     (sphereRadius e) (sphereVelocity e) (poolSize e) (poolHeight e)
     (windStrength e) (interactionStrength e) (waveSpeed e)
     (accumulatedWaveTime e).

Definition onPointerLeave (e : t) : t :=
  mk (waterSim e) true (isDraggingSphere e) None
     (oldSpherePos e) (sphere_position e) (isPaused e) (gravityEnabled e)
     (sphereRadius e) (sphereVelocity e) (poolSize e) (poolHeight e)
     (windStrength e) (interactionStrength e) (waveSpeed e)
     (accumulatedWaveTime e).

(** [animate], up to [waterSim.updateNormals()]; [delta] is
    [clock.getDelta()].  What follows in the source only reads the state. *)
Definition animate (delta : R) (e : t) : t :=
  if isPaused e then e else
  let waveTime := accumulatedWaveTime e + delta * waveSpeed e in
  let '(pos, vel) :=
    if negb (isDraggingSphere e) && gravityEnabled e then spherePhysics e
    else if isDraggingSphere e then (sphere_position e, mkVec3 0 0 0)
    else (sphere_position e, sphereVelocity e) in
  let sim := waterSim e in
  let sim := GPGPUWater.addDrop (sin (waveTime * 0.3 + 2) * 0.5 + 0.5)
               (cos (waveTime * 0.5 + 1) * 0.5 + 0.5) 0.05 (windStrength e) sim in
  let sim := GPGPUWater.addDrop (sin (waveTime * 0.2 - 1) * 0.5 + 0.5)
               (cos (waveTime * 0.4 - 3) * 0.5 + 0.5) 0.08
               (- windStrength e * 0.7) sim in
  let old := oldSpherePos e in
  let '(sim, old) :=
    if Rlt_dec 0.001 (THREE.distanceTo3 old pos) then
      (GPGPUWater.moveSphere
         (mkVec3 (v3x old) (v3y old) (- v3z old))
         (mkVec3 (v3x pos) (v3y pos) (- v3z pos))
         (sphereRadius e) sim, pos)
    else (sim, old) in
  let sim := GPGPUWater.updateNormals (GPGPUWater.step sim) in
  mk sim (controls_enabled e) (isDraggingSphere e)
     (lastWaterInteractionPoint e) old pos (isPaused e) (gravityEnabled e)
     (sphereRadius e) vel (poolSize e) (poolHeight e) (windStrength e)
     (interactionStrength e) (waveSpeed e) waveTime.

End WithSampler.

(** The gesture state the engine is in. *)
Inductive Gesture := Idle | DraggingBody | Disturbing.

Definition gesture (e : t) : Gesture :=
  if isDraggingSphere e then DraggingBody
  else match lastWaterInteractionPoint e with
       | Some _ => Disturbing
       | None => Idle
       end.

End WaterEngine.

(** ** The formulas of the specification

    Second definitions, written from the words of the specification; the
    theorems below compare them with what the code computes. *)

Module Spec.

(** Section 4.1, Wave Update. *)
Definition mean (a b c d : R) : R := (a + b + c + d) / 4.
Definition velocity' (velocity height avg damping : R) : R :=
  (velocity + 2 * (avg - height)) * damping.
Definition height' (height velocity' : R) : R := height + velocity'.

(** Section 4.2, Disturbance Injection. *)
Definition distance (p q : vec2) : R :=
  sqrt ((v2x p - v2x q) ^ 2 + (v2y p - v2y q) ^ 2).
Definition drop (uv c : vec2) (radius : R) : R :=
  let d := Rmax 0 (1 - distance uv c / radius) in
  0.5 - cos (d * Rtrigo1.PI) * 0.5.

(** Section 4.4, Rigid-Body Displacement.  A cell at [uv] stands at
    [(2u - 1, 2v - 1)] in the horizontal plane of the pool. *)
Definition horizontalDistance (uv : vec2) (center : vec3) : R :=
  sqrt ((v2x uv * 2 - 1 - v3x center) ^ 2 + (v2y uv * 2 - 1 - v3z center) ^ 2).
Definition V (k radius : R) (uv : vec2) (center : vec3) : R :=
  let t := horizontalDistance uv center / radius in
  let falloff := exp (- (1.5 * t) ^ 6) in
  let yMin := Rmin 0 (v3y center - falloff) in
  let yMax := Rmin (Rmax 0 (v3y center + falloff)) (yMin + 2 * falloff) in
  (yMax - yMin) * k.

(** Section 4.5, trail of a drag. *)
Definition trailCount (dist : R) : Z := Zceil (dist / 0.015).
Definition trailStrength (configuredStrength dist : R) : R :=
  Rmin configuredStrength (0.01 + dist * configuredStrength * 8).

(** Section 4.6, Sphere Physics. *)
Definition clamp (x lo hi : R) : R := Rmax lo (Rmin hi x).
Definition submerged (radius y : R) : R :=
  clamp ((radius - y) / (2 * radius)) 0 1.

End Spec.

(** ** Example states *)

Module Examples.

(** The engine's simulation as constructed:
    [new GPGPUWater(renderer, 128)]. *)
Definition restSim : GPGPUWater.t := GPGPUWater.create 128.

(** The engine after its constructor, with the sphere at [pos]. *)
Definition engineAt (pos : vec3) (dragging : bool) (last : option vec2)
    : WaterEngine.t :=
  WaterEngine.mk restSim true dragging last pos pos false true
    0.25 (mkVec3 0 0 0) 2 1 0.0005 0.03 1 0.

(** A pointer ray that misses the sphere and meets the water plane at
    [p]. *)
Definition rayAt (p : vec3) : WaterEngine.PointerRay :=
  WaterEngine.mkRay None p p.

End Examples.

(** ** Notions the statements are written with *)

Module Grid.

Section WithSampler.
Context {S : Sampler}.

(** The height the passes read at [uv] in the current grid. *)
Definition sampledHeight (w : GPGPUWater.t) (uv : vec2) : R :=
  chan_r (texture2D (GPGPUWater.size w) (GPGPUWater.read w) uv).

(** Mean of the heights read one cell to the left, right, below and above
    cell [(i, j)], the offsets being [dx = dy = 1 / size]. *)
Definition neighbourAvg (w : GPGPUWater.t) (i j : nat) : R :=
  let uv := GPGPUWater.cellUV w i j in
  let dx := 1 / INR (GPGPUWater.size w) in
  let dy := 1 / INR (GPGPUWater.size w) in
  Spec.mean (sampledHeight w (mkVec2 (v2x uv - dx) (v2y uv)))
            (sampledHeight w (mkVec2 (v2x uv + dx) (v2y uv)))
            (sampledHeight w (mkVec2 (v2x uv) (v2y uv - dy)))
            (sampledHeight w (mkVec2 (v2x uv) (v2y uv + dy))).

End WithSampler.

(** Cell [(i, j)] lies in the grid of [w]. *)
Definition inGrid (w : GPGPUWater.t) (i j : nat) : Prop :=
  (i < GPGPUWater.size w)%nat /\ (j < GPGPUWater.size w)%nat.

(** Every cell of the grid has zero height and zero velocity. *)
Definition atRest (w : GPGPUWater.t) : Prop :=
  forall i j, inGrid w i j ->
    GPGPUWater.height w i j = 0 /\ GPGPUWater.velocity w i j = 0.

End Grid.

(** ** shaders.ts: the surface shaders *)

Module Render.

Definition dot2 (p q : vec2) : R := v2x p * v2x q + v2y p * v2y q.
Definition dot3 (p q : vec3) : R :=
  v3x p * v3x q + v3y p * v3y q + v3z p * v3z q.
Definition sub3 (p q : vec3) : vec3 :=
  mkVec3 (v3x p - v3x q) (v3y p - v3y q) (v3z p - v3z q).

(** [origin + ray * t] *)
Definition along (origin ray : vec3) (t : R) : vec3 :=
  THREE.add3 origin (THREE.multiplyScalar ray t).

(** GLSL [clamp(x, minVal, maxVal)] is [min(max(x, minVal), maxVal)]. *)
Definition clamp (x minVal maxVal : R) : R := Rmin (Rmax x minVal) maxVal.

(** GLSL [smoothstep(edge0, edge1, x)]. *)
Definition smoothstep (edge0 edge1 x : R) : R :=
  let t := clamp ((x - edge0) / (edge1 - edge0)) 0 1 in
  t * t * (3 - 2 * t).

(** GLSL [sign(x)]. *)
Definition sign (x : R) : R :=
  if Rlt_dec 0 x then 1 else if Rlt_dec x 0 then -1 else 0.

(** [waterVertexShader]: the vertex position after
    [pos.y += info.r * falloff], before the model matrix is applied. *)
Definition waterVertexShader (info : vec4) (uv : vec2) (position : vec3)
    : vec3 :=
  let distToEdgeX := Rmin (v2x uv) (1 - v2x uv) in
  let distToEdgeY := Rmin (v2y uv) (1 - v2y uv) in
  let distToEdge := Rmin distToEdgeX distToEdgeY in
  let falloff := smoothstep 0 0.05 distToEdge in
  mkVec3 (v3x position) (v3y position + chan_r info * falloff) (v3z position).

(** [const float poolSize = 2.0; const float poolHeight = 1.0;] of
    [waterFragmentShader], and the value [1.0e6] it returns for a miss. *)
Definition poolSize : R := 2.
Definition poolHeight : R := 1.
Definition farAway : R := 1000000.

Definition intersectSphere (origin ray sphereCenter : vec3)
    (sphereRadius : R) : R :=
  let toSphere := sub3 origin sphereCenter in
  let a := dot3 ray ray in
  let b := 2 * dot3 toSphere ray in
  let c := dot3 toSphere toSphere - sphereRadius * sphereRadius in
  let discriminant := b * b - 4 * a * c in
  if Rlt_dec 0 discriminant then
    let t := (- b - sqrt discriminant) / (2 * a) in
    if Rlt_dec 0 t then t else farAway
  else farAway.

Definition intersectOpenPool (origin ray : vec3) : R :=
  let t := farAway in
  let t :=
    if Rlt_dec (v3y ray) 0 then
      let t_floor := (- poolHeight - v3y origin) / v3y ray in
      if Rlt_dec 0 t_floor then Rmin t t_floor else t
    else t in
  let t :=
    if Rlt_dec (1 / 100000) (Rabs (v3x ray)) then
      let wallX := sign (v3x ray) * poolSize / 2 in
      let t_wallX := (wallX - v3x origin) / v3x ray in
      if Rlt_dec 0 t_wallX then Rmin t t_wallX else t
    else t in
  let t :=
    if Rlt_dec (1 / 100000) (Rabs (v3z ray)) then
      let wallZ := sign (v3z ray) * poolSize / 2 in
      let t_wallZ := (wallZ - v3z origin) / v3z ray in
      if Rlt_dec 0 t_wallZ then Rmin t t_wallZ else t
    else t in
  t.

(** [simNormal] of [waterFragmentShader]'s [main]: the normal rebuilt from
    the two stored components. *)
Definition simNormal (info : vec4) : vec3 :=
  let ba := mkVec2 (chan_b info) (chan_a info) in
  normalize (mkVec3 (chan_b info) (sqrt (1 - dot2 ba ba)) (chan_a info)).

End Render.

(** ** WaterEngine.ts: construction, setters, bubbles and the event loop *)

Module Lifecycle.

Import WaterEngine.

(** The engine as its constructor leaves it, before the first frame. *)
Definition create : WaterEngine.t :=
  WaterEngine.mk (GPGPUWater.create 128) true false None
    (mkVec3 (-0.3) (-0.1) 0.3) (mkVec3 (-0.3) (-0.1) 0.3) false true
    0.25 (mkVec3 0 0 0) 2 1 0.0005 0.03 1 0.

Definition setPaused (paused : bool) (e : t) : t :=
  mk (waterSim e) (controls_enabled e) (isDraggingSphere e)
     (lastWaterInteractionPoint e) (oldSpherePos e) (sphere_position e)
     paused (gravityEnabled e) (sphereRadius e) (sphereVelocity e)
     (poolSize e) (poolHeight e) (windStrength e) (interactionStrength e)
     (waveSpeed e) (accumulatedWaveTime e).

Definition setGravity (enabled : bool) (e : t) : t :=
  mk (waterSim e) (controls_enabled e) (isDraggingSphere e)
     (lastWaterInteractionPoint e) (oldSpherePos e) (sphere_position e)
     (isPaused e) enabled (sphereRadius e) (sphereVelocity e)
     (poolSize e) (poolHeight e) (windStrength e) (interactionStrength e)
     (waveSpeed e) (accumulatedWaveTime e).

Definition setDamping (v : R) (e : t) : t :=
  mk (GPGPUWater.setDamping v (waterSim e)) (controls_enabled e)
     (isDraggingSphere e) (lastWaterInteractionPoint e) (oldSpherePos e)
     (sphere_position e) (isPaused e) (gravityEnabled e) (sphereRadius e)
     (sphereVelocity e) (poolSize e) (poolHeight e) (windStrength e)
     (interactionStrength e) (waveSpeed e) (accumulatedWaveTime e).

Definition setWindStrength (v : R) (e : t) : t :=
  mk (waterSim e) (controls_enabled e) (isDraggingSphere e)
     (lastWaterInteractionPoint e) (oldSpherePos e) (sphere_position e)
     (isPaused e) (gravityEnabled e) (sphereRadius e) (sphereVelocity e)
     (poolSize e) (poolHeight e) v (interactionStrength e)
     (waveSpeed e) (accumulatedWaveTime e).

Definition setInteractionStrength (v : R) (e : t) : t :=
  mk (waterSim e) (controls_enabled e) (isDraggingSphere e)
     (lastWaterInteractionPoint e) (oldSpherePos e) (sphere_position e)
     (isPaused e) (gravityEnabled e) (sphereRadius e) (sphereVelocity e)
     (poolSize e) (poolHeight e) (windStrength e) v
     (waveSpeed e) (accumulatedWaveTime e).

Definition setWaveSpeed (v : R) (e : t) : t :=
  mk (waterSim e) (controls_enabled e) (isDraggingSphere e)
     (lastWaterInteractionPoint e) (oldSpherePos e) (sphere_position e)
     (isPaused e) (gravityEnabled e) (sphereRadius e) (sphereVelocity e)
     (poolSize e) (poolHeight e) (windStrength e) (interactionStrength e)
     v (accumulatedWaveTime e).

(** One entry of [bubblesData]. *)
Record Bubble := mkBubble {
  bubble_position : vec3;
  bubble_velocity : R;
  wobbleSpeed : R;
  wobbleOffset : R
}.

(** The body of [bubblesData.forEach] in [animate]; [time] is
    [clock.getElapsedTime()], [rx] and [rz] are the two values
    [Math.random()] returns if the bubble is sent back to the floor. *)
Definition updateBubble (e : t) (time rx rz : R) (b : Bubble) : Bubble :=
  let p := bubble_position b in
  let y := v3y p + bubble_velocity b in
  let x := v3x p + sin (time * wobbleSpeed b + wobbleOffset b) * 0.001 in
  if Rlt_dec 0 y then
    mkBubble (mkVec3 ((rx - 0.5) * (poolSize e - 0.1)) (- poolHeight e)
                     ((rz - 0.5) * (poolSize e - 0.1)))
             (bubble_velocity b) (wobbleSpeed b) (wobbleOffset b)
  else
    mkBubble (mkVec3 x y (v3z p))
             (bubble_velocity b) (wobbleSpeed b) (wobbleOffset b).

(** What reaches the engine: the four pointer listeners, the animation
    frame, and the setters the React wrapper calls. *)
Inductive Event :=
| PointerDown (ray : PointerRay)
| PointerMove (ray : PointerRay)
| PointerUp
| PointerLeave
| Frame (delta : R)
| SetPaused (paused : bool)
| SetGravity (enabled : bool)
| SetDamping (v : R)
| SetWindStrength (v : R)
| SetInteractionStrength (v : R)
| SetWaveSpeed (v : R).

Section WithSampler.
Context {S : Sampler}.

Definition handle (e : t) (ev : Event) : t :=
  match ev with
  | PointerDown ray => onPointerDown ray e
  | PointerMove ray => onPointerMove ray e
  | PointerUp => onPointerUp e
  | PointerLeave => onPointerLeave e
  | Frame delta => animate delta e
  | SetPaused paused => setPaused paused e
  | SetGravity enabled => setGravity enabled e
  | SetDamping v => setDamping v e
  | SetWindStrength v => setWindStrength v e
  | SetInteractionStrength v => setInteractionStrength v e
  | SetWaveSpeed v => setWaveSpeed v e
  end.

(** The engine after the events [evs], in order. *)
Definition run (evs : list Event) : t := fold_left handle evs create.

(** The two wind injections of a frame, for the accumulated wave time
    [waveTime] the frame has just computed. *)
Definition windDrops (e : t) (waveTime : R) : list Drop :=
  [ mkDrop (mkVec2 (sin (waveTime * 0.3 + 2) * 0.5 + 0.5)
                   (cos (waveTime * 0.5 + 1) * 0.5 + 0.5))
           0.05 (windStrength e);
    mkDrop (mkVec2 (sin (waveTime * 0.2 - 1) * 0.5 + 0.5)
                   (cos (waveTime * 0.4 - 3) * 0.5 + 0.5))
           0.08 (- windStrength e * 0.7) ].

(** The calls to [addDrop] an event makes, in order. *)
Definition issuedDrops (e : t) (ev : Event) : list Drop :=
  match ev with
  | PointerDown ray =>
      match sphereHit ray with
      | Some _ => []
      | None =>
          let uv := pointUV e (waterPoint ray) in
          if inPool uv then [mkDrop uv 0.03 (interactionStrength e)] else []
      end
  | PointerMove ray =>
      if isDraggingSphere e then []
      else match sphereHit ray with
           | Some _ => []
           | None =>
               let currentUv := pointUV e (waterPoint ray) in
               if outOfPool currentUv then []
               else match lastWaterInteractionPoint e with
                    | Some last =>
                        trailDrops (interactionStrength e) last currentUv
                    | None => []
                    end
           end
  | Frame delta =>
      if isPaused e then []
      else windDrops e (accumulatedWaveTime e + delta * waveSpeed e)
  | _ => []
  end.

(** The sphere after the physics stage of an unpaused frame. *)
Definition framePhysics (e : t) : vec3 * vec3 :=
  if negb (isDraggingSphere e) && gravityEnabled e then spherePhysics e
  else if isDraggingSphere e then (sphere_position e, mkVec3 0 0 0)
  else (sphere_position e, sphereVelocity e).

(** The simulation of an unpaused frame after its wind injections, and
    after the displacement pass that may follow them. *)
Definition frameWind (delta : R) (e : t) : GPGPUWater.t :=
  fold_left applyDrop
    (windDrops e (accumulatedWaveTime e + delta * waveSpeed e)) (waterSim e).

Definition frameDisplaced (delta : R) (e : t) : GPGPUWater.t :=
  let pos := fst (framePhysics e) in
  let old := oldSpherePos e in
  if Rlt_dec 0.001 (THREE.distanceTo3 old pos) then
    GPGPUWater.moveSphere
      (mkVec3 (v3x old) (v3y old) (- v3z old))
      (mkVec3 (v3x pos) (v3y pos) (- v3z pos))
      (sphereRadius e) (frameWind delta e)
  else frameWind delta e.

End WithSampler.

End Lifecycle.

(** ** MetaPrototype.tsx: floating windows and the event log *)

Module MetaPrototype.

Inductive WindowId := control | code | console.

Record WindowState := mkWindow {
  id : WindowId;
  title : String.string;
  isOpen : bool;
  zIndex : Z;
  win_x : R;
  win_y : R
}.

(** [Record<WindowId, WindowState>] *)
Definition Windows := WindowId -> WindowState.

Definition WindowId_eqb (a b : WindowId) : bool :=
  match a, b with
  | control, control | code, code | console, console => true
  | _, _ => false
  end.

(** [{ ...prev, [id]: w }] *)
Definition setWindow (prev : Windows) (i : WindowId) (w : WindowState)
    : Windows :=
  fun j => if WindowId_eqb i j then w else prev j.

(** [Math.max(...Object.values(prev).map(w => w.zIndex))] *)
Definition maxZ (prev : Windows) : Z :=
  Z.max (zIndex (prev control))
        (Z.max (zIndex (prev code)) (zIndex (prev console))).

Definition withZIndex (w : WindowState) (z : Z) : WindowState :=
  mkWindow (id w) (title w) (isOpen w) z (win_x w) (win_y w).

Definition withIsOpen (w : WindowState) (o : bool) : WindowState :=
  mkWindow (id w) (title w) o (zIndex w) (win_x w) (win_y w).

Definition bringToFront (i : WindowId) (prev : Windows) : Windows :=
  if Z.eqb (zIndex (prev i)) (maxZ prev) then prev
  else setWindow prev i (withZIndex (prev i) (maxZ prev + 1)).

Definition toggleWindow (i : WindowId) (prev : Windows) : Windows :=
  let isOpen' := negb (isOpen (prev i)) in
  let next := setWindow prev i (withIsOpen (prev i) isOpen') in
  if isOpen' then setWindow next i (withZIndex (next i) (maxZ prev + 1))
  else next.

Record LogEntry := mkLog {
  log_id : String.string;
  timestamp : String.string;
  message : String.string
}.

(** [l.slice(-n)]: the last [n] elements. *)
Definition sliceLast {A : Type} (n : nat) (l : list A) : list A :=
  skipn (length l - n) l.

(** The updater [logEvent] hands to [setLogs]. *)
Definition logEvent (entry : LogEntry) (prev : list LogEntry)
    : list LogEntry :=
  sliceLast 50 (prev ++ [entry]).

End MetaPrototype.

(** ** Notions for the further properties *)

Module More.

(** Sum of the pulses of the injections [ds] at [uv], each times its
    strength. *)
Definition totalDrop (uv : vec2) (ds : list WaterEngine.Drop) : R :=
  fold_right
    (fun d acc =>
       Shaders.drop uv (WaterEngine.drop_center d) (WaterEngine.drop_radius d)
       * WaterEngine.drop_strength d + acc)
    0 ds.

(** [uv] lies in the pool's UV square. *)
Definition inUnitSquare (uv : vec2) : Prop :=
  0 <= v2x uv <= 1 /\ 0 <= v2y uv <= 1.

Section WithSampler.
Context {S : Sampler}.

(** The height differences the normal shader works from, at cell
    [(i, j)]: the height read one cell to the right, and one cell up, minus
    the cell's own height. *)
Definition slopeX (w : GPGPUWater.t) (i j : nat) : R :=
  let uv := GPGPUWater.cellUV w i j in
  Grid.sampledHeight w
    (mkVec2 (v2x uv + 1 / INR (GPGPUWater.size w)) (v2y uv))
  - GPGPUWater.height w i j.

Definition slopeZ (w : GPGPUWater.t) (i j : nat) : R :=
  let uv := GPGPUWater.cellUV w i j in
  Grid.sampledHeight w
    (mkVec2 (v2x uv) (v2y uv + 1 / INR (GPGPUWater.size w)))
  - GPGPUWater.height w i j.

(** Length of the un-normalised normal, divided by the cell width. *)
Definition slopeNorm (w : GPGPUWater.t) (i j : nat) : R :=
  sqrt (slopeX w i j * slopeX w i j + slopeZ w i j * slopeZ w i j
        + (1 / INR (GPGPUWater.size w)) * (1 / INR (GPGPUWater.size w))).

End WithSampler.

(** What holds of the engine after any sequence of events. *)
Record Invariant (e : WaterEngine.t) : Prop := mkInvariant {
  inv_radius : WaterEngine.sphereRadius e = 0.25;
  inv_poolSize : WaterEngine.poolSize e = 2;
  inv_poolHeight : WaterEngine.poolHeight e = 1;
  inv_size : GPGPUWater.size (WaterEngine.waterSim e) = 128%nat;
  inv_velocity_x : v3x (WaterEngine.sphereVelocity e) = 0;
  inv_velocity_z : v3z (WaterEngine.sphereVelocity e) = 0;
  inv_sphere_x : -0.75 <= v3x (WaterEngine.sphere_position e) <= 0.75;
  inv_sphere_z : -0.75 <= v3z (WaterEngine.sphere_position e) <= 0.75;
  inv_sphere_y : -0.75 <= v3y (WaterEngine.sphere_position e);
  inv_last : forall uv,
    WaterEngine.lastWaterInteractionPoint e = Some uv -> inUnitSquare uv
}.

End More.

(** ** float32: the numbers a texel stores *)

Module Float32.

(** IEEE 754 binary32 as [spec_float]: 24 bits of precision, exponents
    below 128, every operation rounded to nearest with ties to even. *)
Definition float : Set := SpecFloat.spec_float.
Definition prec : Z := 24%Z.
Definition emax : Z := 128%Z.

Definition add : float -> float -> float := SpecFloat.SFadd prec emax.
Definition sub : float -> float -> float := SpecFloat.SFsub prec emax.
Definition mul : float -> float -> float := SpecFloat.SFmul prec emax.
Definition div : float -> float -> float := SpecFloat.SFdiv prec emax.
Definition sqrt : float -> float := SpecFloat.SFsqrt prec emax.
Definition opp : float -> float := SpecFloat.SFopp.

(** [x < y] and [x == y] of GLSL. *)
Definition ltb : float -> float -> bool := SpecFloat.SFltb.
Definition eqb : float -> float -> bool := SpecFloat.SFeqb.

(** An integer, and the decimal literal [n/d], as the float nearest to it. *)
Definition ofZ (n : Z) : float := SpecFloat.binary_normalize prec emax n 0 false.
Definition lit (n d : Z) : float := div (ofZ n) (ofZ d).

(** [min(x, y)] is [y] if [y < x], else [x]; [max(x, y)] is [y] if [x < y],
    else [x]. *)
Definition min (x y : float) : float := if ltb y x then y else x.
Definition max (x y : float) : float := if ltb x y then y else x.

Definition isZero (x : float) : bool :=
  match x with SpecFloat.S754_zero _ => true | _ => false end.
Definition isFinite (x : float) : bool :=
  match x with
  | SpecFloat.S754_zero _ | SpecFloat.S754_finite _ _ _ => true
  | _ => false
  end.

Record vec2 := mkVec2 { v2x : float; v2y : float }.
Record vec3 := mkVec3 { v3x : float; v3y : float; v3z : float }.
Record vec4 := mkVec4 {
  chan_r : float; chan_g : float; chan_b : float; chan_a : float
}.

Definition set_r (c : vec4) (h : float) : vec4 :=
  mkVec4 h (chan_g c) (chan_b c) (chan_a c).

Definition length2 (p : vec2) : float :=
  sqrt (add (mul (v2x p) (v2x p)) (mul (v2y p) (v2y p))).

(** [exp] and [pow], whose rounding GLSL leaves to the driver.  What every
    driver returns: [exp(-0.0)] is 1 and [pow(0.0, 6.0)] is 0. *)
Class Builtins := {
  exp : float -> float;
  pow : float -> float -> float;
  exp_zero : exp (SpecFloat.S754_zero true) = ofZ 1;
  pow_zero : pow (SpecFloat.S754_zero false) (ofZ 6) = SpecFloat.S754_zero false
}.

(** A driver that fixes the two built-ins at zero only and answers NaN
    elsewhere: a closed run with it leans on no value the driver is free to
    choose. *)
Definition exactAtZero : Builtins.
Proof.
  refine {|
    exp := fun x => if isZero x then ofZ 1 else SpecFloat.S754_nan;
    pow := fun x y => if isZero x then SpecFloat.S754_zero false
                      else SpecFloat.S754_nan
  |}; reflexivity.
Defined.

Section WithBuiltins.
Context {B : Builtins}.

(** [volumeInSphere] of [sphereShaderFs], operator by operator. *)
Definition volumeInSphere (u_radius : float) (v_uv : vec2) (center : vec3)
    : float :=
  let worldPos :=
    mkVec3 (sub (mul (v2x v_uv) (ofZ 2)) (ofZ 1)) (ofZ 0)
           (sub (mul (v2y v_uv) (ofZ 2)) (ofZ 1)) in
  let to_center_2d :=
    mkVec2 (sub (v3x worldPos) (v3x center)) (sub (v3z worldPos) (v3z center)) in
  let t := div (length2 to_center_2d) u_radius in
  let dy := exp (opp (pow (mul t (lit 3 2)) (ofZ 6))) in
  let ymin := min (ofZ 0) (sub (v3y center) dy) in
  let ymax := min (max (ofZ 0) (add (v3y center) dy)) (add ymin (mul (ofZ 2) dy)) in
  mul (sub ymax ymin) (lit 1 10).

(** [main] of [sphereShaderFs]; [info] is the texel that
    [texture2D(u_texture, v_uv)] returns. *)
Definition sphereShaderFs (info : vec4) (u_oldCenter u_newCenter : vec3)
    (u_radius : float) (v_uv : vec2) : vec4 :=
  let info := set_r info (add (chan_r info)
                            (volumeInSphere u_radius v_uv u_oldCenter)) in
  set_r info (sub (chan_r info) (volumeInSphere u_radius v_uv u_newCenter)).

(** A float texture, the uv of the fragment drawn for cell [(i, j)] of an
    [N] by [N] target, and [GPGPUWater.moveSphere] as the map it is on the
    cells: each is drawn from its own texel. *)
Definition Texture := nat -> nat -> vec4.

Definition fragCoord (N i j : nat) : vec2 :=
  mkVec2 (div (add (ofZ (Z.of_nat i)) (lit 1 2)) (ofZ (Z.of_nat N)))
         (div (add (ofZ (Z.of_nat j)) (lit 1 2)) (ofZ (Z.of_nat N))).

Definition moveSphere (oldCenter newCenter : vec3) (radius : float)
    (N : nat) (tex : Texture) : Texture :=
  fun i j =>
    sphereShaderFs (tex i j) oldCenter newCenter radius (fragCoord N i j).

End WithBuiltins.

(** A flat sheet of water standing at height [h]. *)
Definition sheet (h : float) : Texture :=
  fun _ _ => mkVec4 h (ofZ 0) (ofZ 0) (ofZ 0).

End Float32.

(** * Verification *)

(** ** Arithmetic of the shaders *)

Lemma wave_velocity_arith (a b c d h v k : R) :
  (v + ((a + b + c + d) * 0.25 - h) * 2) * k
  = (v + 2 * ((a + b + c + d) / 4 - h)) * k.
Proof. f_equal; lra. Qed.

Lemma length2_distance (p q : vec2) : length2 (sub2 q p) = Spec.distance p q.
Proof. unfold length2, sub2, Spec.distance; simpl. f_equal. ring. Qed.

Lemma distance_nonneg (p q : vec2) : 0 <= Spec.distance p q.
Proof. unfold Spec.distance. apply sqrt_pos. Qed.

(** The pulse vanishes from the rim outwards. *)
Lemma drop_outside (uv c : vec2) (radius : R) :
  0 < radius -> radius <= Spec.distance uv c -> Shaders.drop uv c radius = 0.
Proof.
  intros Hr Hd. unfold Shaders.drop. cbv zeta. rewrite length2_distance.
  assert (Hq : 1 <= Spec.distance uv c / radius).
  { apply (Rmult_le_reg_r radius); [exact Hr|].
    unfold Rdiv. rewrite Rmult_assoc, Rinv_l by lra. lra. }
  rewrite Rmax_left by lra.
  rewrite Rmult_0_l, cos_0. lra.
Qed.




(** On a non-negative base, GLSL's [pow(x, 6.0)] is the sixth power. *)
Lemma pow_six (x : R) : 0 <= x -> GLSL.pow x 6 = x ^ 6.
Proof.
  intros Hx. unfold GLSL.pow. destruct (Req_dec_T x 0) as [E | NE].
  - subst x. ring.
  - replace 6 with (INR 6) by (simpl; lra).
    apply Rpower_pow. lra.
Qed.

Lemma volumeInSphere_spec (radius : R) (uv : vec2) (center : vec3) :
  0 < radius ->
  Shaders.volumeInSphere radius uv center = Spec.V 0.1 radius uv center.
Proof.
  intros Hr. unfold Shaders.volumeInSphere, Spec.V. cbv zeta.
  assert (Hlen : length2 (sub2 (xz (mkVec3 (v2x uv * 2 - 1) 0 (v2y uv * 2 - 1)))
                               (xz center))
                 = Spec.horizontalDistance uv center).
  { unfold length2, sub2, xz, Spec.horizontalDistance; simpl. f_equal. ring. }
  rewrite Hlen.
  set (t := Spec.horizontalDistance uv center / radius).
  assert (Ht : 0 <= t).
  { unfold t, Rdiv. apply Rmult_le_pos.
    - unfold Spec.horizontalDistance. apply sqrt_pos.
    - left. now apply Rinv_0_lt_compat. }
  rewrite pow_six by lra.
  replace (t * 1.5) with (1.5 * t) by ring.
  reflexivity.
Qed.

(** ** The passes, cell by cell *)

Section Passes.
Context {S : Sampler}.

Lemma read_render (f : vec2 -> vec4) (w : GPGPUWater.t) (i j : nat) :
  GPGPUWater.read (GPGPUWater.render f w) i j
  = f (fragCoord (GPGPUWater.size w) i j).
Proof. reflexivity. Qed.

Lemma own_texel (w : GPGPUWater.t) (i j : nat) :
  Grid.inGrid w i j ->
  texture2D (GPGPUWater.size w) (GPGPUWater.read w)
            (fragCoord (GPGPUWater.size w) i j)
  = GPGPUWater.cell w i j.
Proof. intros [Hi Hj]. unfold GPGPUWater.cell. now apply texture2D_texel. Qed.

(** Each pass as a map on the cell it is drawn for. *)
Lemma addDrop_texel (x y radius strength : R) (w : GPGPUWater.t) (i j : nat) :
  Grid.inGrid w i j ->
  GPGPUWater.cell (GPGPUWater.addDrop x y radius strength w) i j
  = set_r (GPGPUWater.cell w i j)
      (GPGPUWater.height w i j
       + Shaders.drop (GPGPUWater.cellUV w i j) (mkVec2 x y) radius * strength).
Proof.
  intros Hin. unfold GPGPUWater.cell at 1, GPGPUWater.addDrop.
  rewrite read_render. unfold Shaders.dropShaderFs. cbv zeta.
  rewrite own_texel by exact Hin. reflexivity.
Qed.

Lemma addDrop_height (x y radius strength : R) (w : GPGPUWater.t) (i j : nat) :
  Grid.inGrid w i j ->
  GPGPUWater.height (GPGPUWater.addDrop x y radius strength w) i j
  = GPGPUWater.height w i j
    + Shaders.drop (GPGPUWater.cellUV w i j) (mkVec2 x y) radius * strength.
Proof.
  intros Hin. unfold GPGPUWater.height at 1.
  rewrite addDrop_texel by exact Hin. reflexivity.
Qed.

Lemma moveSphere_texel (oldC newC : vec3) (radius : R) (w : GPGPUWater.t)
    (i j : nat) :
  Grid.inGrid w i j ->
  GPGPUWater.cell (GPGPUWater.moveSphere oldC newC radius w) i j
  = set_r (GPGPUWater.cell w i j)
      (GPGPUWater.height w i j
       + Shaders.volumeInSphere radius (GPGPUWater.cellUV w i j) oldC
       - Shaders.volumeInSphere radius (GPGPUWater.cellUV w i j) newC).
Proof.
  intros Hin. unfold GPGPUWater.cell at 1, GPGPUWater.moveSphere.
  rewrite read_render. unfold Shaders.sphereShaderFs. cbv zeta.
  rewrite own_texel by exact Hin. reflexivity.
Qed.

Lemma step_texel (w : GPGPUWater.t) (i j : nat) :
  Grid.inGrid w i j ->
  let v' := Spec.velocity' (GPGPUWater.velocity w i j) (GPGPUWater.height w i j)
              (Grid.neighbourAvg w i j) (GPGPUWater.u_damping w) in
  GPGPUWater.cell (GPGPUWater.step w) i j
  = mkVec4 (GPGPUWater.height w i j + v') v'
           (GPGPUWater.normalX w i j) (GPGPUWater.normalZ w i j).
Proof.
  intros Hin v'. unfold GPGPUWater.cell at 1, GPGPUWater.step.
  rewrite read_render. unfold Shaders.updateShaderFs. cbv zeta.
  rewrite own_texel by exact Hin.
  assert (Hv : forall a b c d a' b' c' d' h v k,
             a = a' -> b = b' -> c = c' -> d = d' ->
             (v + ((a + b + c + d) * 0.25 - h) * 2) * k
             = Spec.velocity' v h (Spec.mean a' b' c' d') k).
  { intros; subst; apply wave_velocity_arith. }
  unfold set_r, set_g; cbn [chan_r chan_g chan_b chan_a].
  subst v'. unfold GPGPUWater.height, GPGPUWater.velocity, GPGPUWater.normalX,
    GPGPUWater.normalZ, Grid.neighbourAvg, Grid.sampledHeight,
    GPGPUWater.cellUV, GPGPUWater.u_delta, sub2, add2.
  cbn [v2x v2y].
  rewrite !Rplus_0_r, !Rminus_0_r.
  f_equal; [f_equal|]; apply Hv; reflexivity.
Qed.

Lemma updateNormals_texel (w : GPGPUWater.t) (i j : nat) :
  Grid.inGrid w i j ->
  exists n : vec2,
    GPGPUWater.cell (GPGPUWater.updateNormals w) i j
    = set_ba (GPGPUWater.cell w i j) n.
Proof.
  intros Hin. unfold GPGPUWater.cell at 1, GPGPUWater.updateNormals.
  rewrite read_render. unfold Shaders.normalShaderFs. cbv zeta.
  rewrite own_texel by exact Hin. eexists. reflexivity.
Qed.

End Passes.

(** ** Claims on the grid passes *)

Section GridClaims.
Context {S : Sampler}.

Lemma cell_centre_next (N k : nat) :
  (0 < N)%nat ->
  (INR k + 0.5) / INR N + 1 / INR N = (INR (k + 1) + 0.5) / INR N.
Proof.
  intros HN. assert (HNr : INR N <> 0) by (apply not_0_INR; lia).
  rewrite plus_INR. simpl INR. field. exact HNr.
Qed.

Lemma cell_centre_prev (N k : nat) :
  (0 < N)%nat -> (1 <= k)%nat ->
  (INR k + 0.5) / INR N - 1 / INR N = (INR (k - 1) + 0.5) / INR N.
Proof.
  intros HN Hk. assert (HNr : INR N <> 0) by (apply not_0_INR; lia).
  rewrite minus_INR by exact Hk. simpl INR. field. exact HNr.
Qed.

Lemma interior_neighbours (w : GPGPUWater.t) (i j : nat) :
  (1 <= i)%nat -> (i + 1 < GPGPUWater.size w)%nat ->
  (1 <= j)%nat -> (j + 1 < GPGPUWater.size w)%nat ->
  Grid.neighbourAvg w i j
  = Spec.mean (GPGPUWater.height w (i - 1) j) (GPGPUWater.height w (i + 1) j)
              (GPGPUWater.height w i (j - 1)) (GPGPUWater.height w i (j + 1)).
Proof.
  intros Hi1 Hi2 Hj1 Hj2.
  unfold Grid.neighbourAvg, Grid.sampledHeight, GPGPUWater.cellUV, fragCoord.
  set (N := GPGPUWater.size w) in *.
  assert (HN : (0 < N)%nat) by lia.
  cbn [v2x v2y]. cbv zeta.
  rewrite !cell_centre_next, !cell_centre_prev by assumption.
  fold (fragCoord N (i - 1) j) (fragCoord N (i + 1) j)
       (fragCoord N i (j - 1)) (fragCoord N i (j + 1)).
  unfold GPGPUWater.height, GPGPUWater.cell.
  rewrite !texture2D_texel by lia. reflexivity.
Qed.

(** C1. One [step] maps every cell of every grid to
    [velocity' = (velocity + 2 * (avg - height)) * damping] and
    [height' = height + velocity'], where [avg] is the mean of the heights
    read in the read buffer at the four offsets of one cell,
    [dx = dy = 1 / N]; for a cell off the border these four reads are the
    heights of its left, right, lower and upper neighbours. *)
Theorem step_wave_update (w : GPGPUWater.t) (i j : nat) :
  Grid.inGrid w i j ->
  GPGPUWater.velocity (GPGPUWater.step w) i j
  = Spec.velocity' (GPGPUWater.velocity w i j) (GPGPUWater.height w i j)
      (Grid.neighbourAvg w i j) (GPGPUWater.u_damping w)
  /\ GPGPUWater.height (GPGPUWater.step w) i j
     = Spec.height' (GPGPUWater.height w i j)
         (GPGPUWater.velocity (GPGPUWater.step w) i j)
  /\ ((1 <= i)%nat -> (i + 1 < GPGPUWater.size w)%nat ->
      (1 <= j)%nat -> (j + 1 < GPGPUWater.size w)%nat ->
      Grid.neighbourAvg w i j
      = Spec.mean (GPGPUWater.height w (i - 1) j)
                  (GPGPUWater.height w (i + 1) j)
                  (GPGPUWater.height w i (j - 1))
                  (GPGPUWater.height w i (j + 1))).
Proof.
  intros Hin.
  pose proof (step_texel w i j Hin) as Hcell. cbv zeta in Hcell.
  unfold GPGPUWater.velocity at 1 3, GPGPUWater.height at 2.
  rewrite Hcell. cbn [chan_r chan_g].
  split; [reflexivity|]. split; [reflexivity|].
  apply interior_neighbours.
Qed.


(** C3. With [radius > 0], [moveSphere previousPosition newPosition radius]
    turns the height of every cell into
    [height + V previousPosition - V newPosition], where [V] is the
    specification's column volume with scale [k = 0.1] and the horizontal
    distance is taken from the cell's place [(2u - 1, 2v - 1)] in the pool;
    the other channels are unchanged. *)
Theorem moveSphere_displacement (previousPosition newPosition : vec3)
    (radius : R) (w : GPGPUWater.t) (i j : nat) :
  0 < radius ->
  Grid.inGrid w i j ->
  let w' := GPGPUWater.moveSphere previousPosition newPosition radius w in
  let uv := GPGPUWater.cellUV w i j in
  GPGPUWater.height w' i j
  = GPGPUWater.height w i j + Spec.V 0.1 radius uv previousPosition
                            - Spec.V 0.1 radius uv newPosition
  /\ GPGPUWater.velocity w' i j = GPGPUWater.velocity w i j
  /\ GPGPUWater.normalX w' i j = GPGPUWater.normalX w i j
  /\ GPGPUWater.normalZ w' i j = GPGPUWater.normalZ w i j.
Proof.
  intros Hr Hin w' uv.
  pose proof (moveSphere_texel previousPosition newPosition radius w i j Hin)
    as Hcell.
  fold w' uv in Hcell.
  unfold GPGPUWater.height at 1, GPGPUWater.velocity at 1,
    GPGPUWater.normalX at 1, GPGPUWater.normalZ at 1.
  rewrite Hcell. cbn [set_r chan_r chan_g chan_b chan_a].
  rewrite !volumeInSphere_spec by exact Hr.
  repeat split; reflexivity.
Qed.

Lemma step_size (w : GPGPUWater.t) :
  GPGPUWater.size (GPGPUWater.step w) = GPGPUWater.size w.
Proof. reflexivity. Qed.

Lemma step_keeps_rest (w : GPGPUWater.t) :
  Grid.atRest w -> Grid.atRest (GPGPUWater.step w).
Proof.
  intros Hrest i j Hin.
  assert (Hin' : Grid.inGrid w i j) by exact Hin.
  destruct (Hrest i j Hin') as [Hh Hv].
  assert (HN : (0 < GPGPUWater.size w)%nat) by (destruct Hin'; lia).
  assert (Hflat : forall uv, Grid.sampledHeight w uv = 0).
  { intros uv. unfold Grid.sampledHeight. apply texture2D_flat; [exact HN|].
    intros a b Ha Hb. apply (Hrest a b). split; assumption. }
  assert (Havg : Grid.neighbourAvg w i j = 0).
  { unfold Grid.neighbourAvg, Spec.mean. cbv zeta. rewrite !Hflat. lra. }
  pose proof (step_texel w i j Hin') as Hcell. cbv zeta in Hcell.
  unfold GPGPUWater.height, GPGPUWater.velocity. rewrite Hcell.
  cbn [chan_r chan_g]. rewrite Hh, Hv, Havg. unfold Spec.velocity'.
  split; ring.
Qed.

(** C4. From a grid whose cells all have height 0 and velocity 0, any number
    of [step]s, with nothing else in between, leaves every cell at height 0
    and velocity 0, whatever the damping. *)
Theorem rest_invariant (damping : R) (n : nat) (w : GPGPUWater.t) :
  Grid.atRest w ->
  Grid.atRest (Nat.iter n GPGPUWater.step (GPGPUWater.setDamping damping w)).
Proof.
  intros Hrest. induction n as [| n IH].
  - exact Hrest.
  - simpl. apply step_keeps_rest. exact IH.
Qed.

(** C10. [step] leaves [normalX] and [normalZ] of every cell unchanged, and
    [updateNormals] leaves [height] and [velocity] of every cell
    unchanged. *)
Theorem passes_frame (w : GPGPUWater.t) (i j : nat) :
  Grid.inGrid w i j ->
  (GPGPUWater.normalX (GPGPUWater.step w) i j = GPGPUWater.normalX w i j
   /\ GPGPUWater.normalZ (GPGPUWater.step w) i j = GPGPUWater.normalZ w i j)
  /\ (GPGPUWater.height (GPGPUWater.updateNormals w) i j
      = GPGPUWater.height w i j
      /\ GPGPUWater.velocity (GPGPUWater.updateNormals w) i j
         = GPGPUWater.velocity w i j).
Proof.
  intros Hin. split.
  - pose proof (step_texel w i j Hin) as Hcell. cbv zeta in Hcell.
    unfold GPGPUWater.normalX at 1, GPGPUWater.normalZ at 1.
    rewrite Hcell. split; reflexivity.
  - destruct (updateNormals_texel w i j Hin) as [n Hcell].
    unfold GPGPUWater.height at 1, GPGPUWater.velocity at 1.
    rewrite Hcell. split; reflexivity.
Qed.

End GridClaims.

(** ** The displacement pass on float32 texels *)

Lemma float32_sub_diag (x : Float32.float) :
  Float32.isFinite x = true -> Float32.sub x x = SpecFloat.S754_zero false.
Proof.
  destruct x as [s | s | | s m e]; intros H; try discriminate H.
  - destruct s; reflexivity.
  - unfold Float32.sub, SpecFloat.SFsub. cbv zeta.
    rewrite Z.sub_diag. reflexivity.
Qed.

(** C5. [moveSphere P P r] on float32 texels: the velocity and both normal
    channels of every cell are unchanged, and the height [h] of a cell
    becomes [(h + V) - V], both operations rounded, where [V] is the
    volume the shader computes for the cell.  That is 0 for a cell at rest
    (as long as [V] is finite) and [h] for a cell where [V] is zero. *)
Theorem moveSphere_same_center_float32 {B : Float32.Builtins}
    (P : Float32.vec3) (r : Float32.float) (N : nat) (tex : Float32.Texture)
    (i j : nat) :
  let V := Float32.volumeInSphere r (Float32.fragCoord N i j) P in
  let h := Float32.chan_r (tex i j) in
  let c' := Float32.moveSphere P P r N tex i j in
  Float32.chan_r c' = Float32.sub (Float32.add h V) V
  /\ Float32.chan_g c' = Float32.chan_g (tex i j)
  /\ Float32.chan_b c' = Float32.chan_b (tex i j)
  /\ Float32.chan_a c' = Float32.chan_a (tex i j)
  /\ (Float32.isZero h = true -> Float32.isFinite V = true ->
      Float32.chan_r c' = SpecFloat.S754_zero false)
  /\ (Float32.isZero V = true -> Float32.isZero h = false ->
      Float32.chan_r c' = h).
Proof.
  intros V h c'.
  assert (Hr : Float32.chan_r c' = Float32.sub (Float32.add h V) V)
    by reflexivity.
  split; [exact Hr|]. repeat split.
  - intros Hh HV. rewrite Hr.
    destruct h as [s | s | | s m e]; try discriminate Hh.
    destruct V as [s' | s' | | s' m' e'] eqn:EV; try discriminate HV.
    + destruct s, s'; reflexivity.
    + change (Float32.add (SpecFloat.S754_zero s) (SpecFloat.S754_finite s' m' e'))
        with (SpecFloat.S754_finite s' m' e').
      now apply float32_sub_diag.
  - intros HV Hh. rewrite Hr.
    destruct V as [s' | s' | | s' m' e'] eqn:EV; try discriminate HV.
    destruct h as [s | s | | s m e]; try discriminate Hh; reflexivity.
Qed.

(** ** Facts on the pulse, used to exhibit grids that do change *)

Lemma cos_below_one (x : R) : 0 < x -> x < 2 * PI -> cos x < 1.
Proof.
  intros H0 H2.
  replace x with (2 * (x / 2)) by field.
  rewrite cos_2a_sin.
  assert (Hs : 0 < sin (x / 2)) by (apply sin_gt_0; lra).
  nra.
Qed.

Lemma shader_PI_bounds : 3 < Shaders.PI < 4.
Proof. unfold Shaders.PI. lra. Qed.

(** Strictly inside the rim the pulse is positive. *)
Lemma drop_inside (uv c : vec2) (radius : R) :
  0 < radius -> Spec.distance uv c < radius -> 0 < Shaders.drop uv c radius.
Proof.
  intros Hr Hd. unfold Shaders.drop. cbv zeta. rewrite length2_distance.
  pose proof (distance_nonneg uv c) as H0.
  set (q := Spec.distance uv c / radius).
  assert (Hq : 0 <= q < 1).
  { unfold q, Rdiv. split.
    - apply Rmult_le_pos; [exact H0 | left; now apply Rinv_0_lt_compat].
    - apply (Rmult_lt_reg_r radius); [exact Hr|].
      rewrite Rmult_assoc, Rinv_l by lra. lra. }
  rewrite Rmax_right by lra.
  pose proof shader_PI_bounds as HP.
  pose proof PI2_3_2 as Hpi.
  assert (Hx : 0 < (1 - q) * Shaders.PI < 2 * PI) by nra.
  pose proof (cos_below_one _ (proj1 Hx) (proj2 Hx)). lra.
Qed.

(** ** Claims on the controller and the sphere *)

Lemma inPool_iff (uv : vec2) :
  WaterEngine.inPool uv = true <-> (0 <= v2x uv <= 1 /\ 0 <= v2y uv <= 1).
Proof.
  unfold WaterEngine.inPool.
  repeat destruct (Rle_dec _ _); split; intros H; try discriminate;
    try reflexivity; lra.
Qed.

Lemma outOfPool_iff (uv : vec2) :
  WaterEngine.outOfPool uv = false <-> (0 <= v2x uv <= 1 /\ 0 <= v2y uv <= 1).
Proof.
  unfold WaterEngine.outOfPool.
  repeat destruct (Rlt_dec _ _); split; intros H; try discriminate;
    try reflexivity; lra.
Qed.

Lemma trailDist_distance (last cur : vec2) :
  WaterEngine.trailDist last cur = Spec.distance last cur.
Proof. unfold WaterEngine.trailDist, THREE.distanceTo2. apply length2_distance. Qed.

Lemma trailDrops_length (s : R) (last cur : vec2) :
  length (WaterEngine.trailDrops s last cur)
  = WaterEngine.trailSegments (WaterEngine.trailDist last cur).
Proof. unfold WaterEngine.trailDrops. cbv zeta. now rewrite length_map, length_seq. Qed.

Lemma trailDrops_nth (s : R) (last cur : vec2) (k : nat) (d : WaterEngine.Drop) :
  (k < WaterEngine.trailSegments (WaterEngine.trailDist last cur))%nat ->
  nth k (WaterEngine.trailDrops s last cur) d
  = WaterEngine.mkDrop
      (THREE.lerp2 last cur
         (INR k / INR (WaterEngine.trailSegments (WaterEngine.trailDist last cur))))
      0.02
      (WaterEngine.trailStrength s (WaterEngine.trailDist last cur)).
Proof.
  intros Hk. unfold WaterEngine.trailDrops. cbv zeta.
  set (f := fun i : nat => _).
  rewrite (nth_indep _ d (f 0%nat)) by (now rewrite length_map, length_seq).
  rewrite map_nth, seq_nth by exact Hk. reflexivity.
Qed.

Lemma drag_example_distance :
  Spec.distance (mkVec2 0.1 0.1) (mkVec2 0.1 0.25) = 0.15.
Proof.
  unfold Spec.distance; simpl.
  replace ((0.1 - 0.1) * ((0.1 - 0.1) * 1) + (0.1 - 0.25) * ((0.1 - 0.25) * 1))
    with (0.15 * 0.15) by lra.
  apply sqrt_square. lra.
Qed.

Lemma drag_example_segments :
  WaterEngine.trailSegments 0.15 = 10%nat.
Proof.
  unfold WaterEngine.trailSegments.
  replace (0.15 / 0.015) with 10 by lra.
  rewrite (Zceil_eq 10 10) by lra. reflexivity.
Qed.

Section ControllerClaims.
Context {S : Sampler}.

(** C7, as the code has it.  A pointer-move in the Disturbing state (not
    dragging, the ray off the sphere, [lastWaterInteractionPoint = Some last],
    the cursor's UV inside the pool) with [dist = |currentUv - last|] calls
    [addDrop] exactly [max 1 (ceil (dist / 0.015))] times, the [k]-th call
    ([k] from 0) at [last + (currentUv - last) * (k / segments)], each with
    radius 0.02 and strength
    [min configuredStrength (0.01 + dist * configuredStrength * 8)], and then
    stores [currentUv]; a drag from UV (0.1, 0.1) to (0.1, 0.25) makes exactly
    10 calls. *)
Theorem pointerMove_trail (ray : WaterEngine.PointerRay) (e : WaterEngine.t)
    (last : vec2) :
  WaterEngine.isDraggingSphere e = false ->
  WaterEngine.sphereHit ray = None ->
  WaterEngine.lastWaterInteractionPoint e = Some last ->
  let currentUv := WaterEngine.pointUV e (WaterEngine.waterPoint ray) in
  0 <= v2x currentUv <= 1 /\ 0 <= v2y currentUv <= 1 ->
  let dist := Spec.distance last currentUv in
  let drops := WaterEngine.trailDrops (WaterEngine.interactionStrength e)
                 last currentUv in
  let segments := Z.to_nat (Z.max 1 (Spec.trailCount dist)) in
  WaterEngine.waterSim (WaterEngine.onPointerMove ray e)
  = fold_left WaterEngine.applyDrop drops (WaterEngine.waterSim e)
  /\ WaterEngine.lastWaterInteractionPoint (WaterEngine.onPointerMove ray e)
     = Some currentUv
  /\ length drops = segments
  /\ (forall k d, (k < segments)%nat ->
        nth k drops d
        = WaterEngine.mkDrop
            (mkVec2 (v2x last + (v2x currentUv - v2x last) * (INR k / INR segments))
                    (v2y last + (v2y currentUv - v2y last) * (INR k / INR segments)))
            0.02
            (Spec.trailStrength (WaterEngine.interactionStrength e) dist))
  /\ (forall s, length (WaterEngine.trailDrops s (mkVec2 0.1 0.1) (mkVec2 0.1 0.25))
                = 10%nat).
Proof.
  intros Hdrag Hhit Hlast currentUv Hin dist drops segments.
  assert (Hout : WaterEngine.outOfPool currentUv = false)
    by (apply outOfPool_iff; exact Hin).
  assert (Hseg : WaterEngine.trailSegments (WaterEngine.trailDist last currentUv)
                 = segments).
  { rewrite trailDist_distance. reflexivity. }
  unfold WaterEngine.onPointerMove.
  rewrite Hdrag, Hhit. fold currentUv. rewrite Hout, Hlast.
  cbn [WaterEngine.setLast WaterEngine.waterSim
       WaterEngine.lastWaterInteractionPoint].
  split; [reflexivity|]. split; [reflexivity|].
  split; [unfold drops; rewrite trailDrops_length; exact Hseg|].
  split.
  - intros k d Hk. unfold drops.
    rewrite trailDrops_nth by (rewrite Hseg; exact Hk).
    rewrite Hseg, trailDist_distance. reflexivity.
  - intros s. rewrite trailDrops_length, trailDist_distance.
    rewrite drag_example_distance. apply drag_example_segments.
Qed.

(** C8. For [r > 0] the submerged ratio the integrator computes is
    [clamp ((r - y) / (2 * r)) 0 1]: 0 when [y > r], 1 when [y < - r], and
    0.5 at [y = 0]. *)
Theorem submergedRatio_clamp (r y : R) :
  0 < r ->
  WaterEngine.submergedRatio r y = Spec.submerged r y
  /\ (r < y -> WaterEngine.submergedRatio r y = 0)
  /\ (y < - r -> WaterEngine.submergedRatio r y = 1)
  /\ WaterEngine.submergedRatio r 0 = 0.5.
Proof.
  intros Hr.
  assert (Hinv : 0 < / (2 * r)) by (apply Rinv_0_lt_compat; lra).
  assert (Hone : 2 * r * / (2 * r) = 1) by (apply Rinv_r; lra).
  repeat split.
  - unfold WaterEngine.submergedRatio, Spec.submerged, Spec.clamp, THREE.clamp.
    destruct (Rlt_dec r y) as [Hy | Hy].
    + assert ((r - y) / (2 * r) < 0) by (unfold Rdiv; nra).
      rewrite Rmin_right by lra. rewrite Rmax_left by lra. reflexivity.
    + destruct (Rlt_dec y (- r)) as [Hy' | Hy'].
      * assert (1 < (r - y) / (2 * r)) by (unfold Rdiv; nra).
        rewrite Rmin_left by lra. rewrite Rmax_right by lra. reflexivity.
      * reflexivity.
  - intros Hy. unfold WaterEngine.submergedRatio.
    destruct (Rlt_dec r y); [reflexivity | contradiction].
  - intros Hy. unfold WaterEngine.submergedRatio.
    destruct (Rlt_dec r y); [lra|].
    destruct (Rlt_dec y (- r)); [reflexivity | contradiction].
  - unfold WaterEngine.submergedRatio, THREE.clamp.
    destruct (Rlt_dec r 0); [lra|].
    destruct (Rlt_dec 0 (- r)); [lra|].
    replace ((r - 0) / (2 * r)) with 0.5 by (unfold Rdiv; nra).
    rewrite Rmin_right by lra. rewrite Rmax_right by lra. reflexivity.
Qed.

(** C9, as the code has it.  [onPointerUp] ends a body drag and clears
    [lastWaterInteractionPoint], so the gesture is Idle.  [onPointerLeave]
    clears [lastWaterInteractionPoint] and re-enables the orbit controls but
    keeps [isDraggingSphere]: the gesture is Idle after it only when no body
    drag was in progress.  Neither handler writes the sphere's velocity; it is
    [animate] that sets it to zero, in every unpaused frame of a drag. *)
Theorem pointerUp_pointerLeave (e : WaterEngine.t) :
  (WaterEngine.isDraggingSphere (WaterEngine.onPointerUp e) = false
   /\ WaterEngine.lastWaterInteractionPoint (WaterEngine.onPointerUp e) = None
   /\ WaterEngine.gesture (WaterEngine.onPointerUp e) = WaterEngine.Idle
   /\ WaterEngine.sphereVelocity (WaterEngine.onPointerUp e)
      = WaterEngine.sphereVelocity e)
  /\ (WaterEngine.lastWaterInteractionPoint (WaterEngine.onPointerLeave e) = None
      /\ WaterEngine.controls_enabled (WaterEngine.onPointerLeave e) = true
      /\ WaterEngine.isDraggingSphere (WaterEngine.onPointerLeave e)
         = WaterEngine.isDraggingSphere e
      /\ WaterEngine.sphereVelocity (WaterEngine.onPointerLeave e)
         = WaterEngine.sphereVelocity e
      /\ (WaterEngine.gesture (WaterEngine.onPointerLeave e) = WaterEngine.Idle
          <-> WaterEngine.isDraggingSphere e = false))
  /\ (forall delta,
        WaterEngine.isPaused e = false ->
        WaterEngine.isDraggingSphere e = true ->
        WaterEngine.sphereVelocity (WaterEngine.animate delta e) = mkVec3 0 0 0).
Proof.
  split; [|split].
  - repeat split.
  - repeat split; unfold WaterEngine.gesture, WaterEngine.onPointerLeave;
      cbn [WaterEngine.isDraggingSphere WaterEngine.lastWaterInteractionPoint];
      destruct (WaterEngine.isDraggingSphere e); intros H;
      try reflexivity; discriminate.
  - intros delta Hp Hd. unfold WaterEngine.animate. rewrite Hp, Hd.
    cbn [negb andb].
    destruct (Rlt_dec _ _); reflexivity.
Qed.

End ControllerClaims.

(** ** Injections and the pool bounds *)

Section PoolBounds.
Context {S : Sampler}.

(** Every cell centre has [u < 1], so a centre at [u = 1.5] is more than
    0.5 away from all of them. *)
Lemma cell_far_from_outside_center (w : GPGPUWater.t) (i j : nat) :
  Grid.inGrid w i j ->
  0.5 < Spec.distance (GPGPUWater.cellUV w i j) (mkVec2 1.5 0.5).
Proof.
  intros [Hi Hj]. unfold GPGPUWater.cellUV, fragCoord, Spec.distance.
  cbn [v2x v2y].
  set (N := GPGPUWater.size w) in *.
  assert (HN : 0 < INR N) by (apply lt_0_INR; lia).
  assert (Hu : (INR i + 0.5) / INR N < 1).
  { apply (Rmult_lt_reg_r (INR N)); [exact HN|].
    unfold Rdiv. rewrite Rmult_assoc, Rinv_l by lra.
    assert (INR i + 1 <= INR N).
    { rewrite <- S_INR. apply le_INR. lia. }
    lra. }
  set (u := (INR i + 0.5) / INR N) in *.
  set (v := (INR j + 0.5) / INR N).
  replace 0.5 with (sqrt (0.5 * 0.5)) at 1 by (apply sqrt_square; lra).
  apply sqrt_lt_1_alt. split; [lra|].
  assert (0 <= (v - 0.5) ^ 2) by apply pow2_ge_0.
  nra.
Qed.

(** C6, as the code has it.  The bounds check is the controller's: a
    pointer-down or pointer-move whose UV has [u] or [v] outside [0,1]
    makes no injection and leaves the simulation as it was, and such a
    pointer-move outside a body drag clears [lastWaterInteractionPoint].
    [GPGPUWater.addDrop] itself checks nothing: [addDrop 1.5 0.5 r s] leaves
    every channel of every cell unchanged when [0 < r <= 0.5], since no cell
    is that close to the centre. *)
Theorem out_of_pool_injection (ray : WaterEngine.PointerRay)
    (e : WaterEngine.t) :
  let uv := WaterEngine.pointUV e (WaterEngine.waterPoint ray) in
  ~ (0 <= v2x uv <= 1 /\ 0 <= v2y uv <= 1) ->
  WaterEngine.waterSim (WaterEngine.onPointerDown ray e) = WaterEngine.waterSim e
  /\ WaterEngine.waterSim (WaterEngine.onPointerMove ray e)
     = WaterEngine.waterSim e
  /\ (WaterEngine.isDraggingSphere e = false ->
      WaterEngine.lastWaterInteractionPoint (WaterEngine.onPointerMove ray e)
      = None)
  /\ (forall r s w i j,
        0 < r <= 0.5 -> Grid.inGrid w i j ->
        GPGPUWater.cell (GPGPUWater.addDrop 1.5 0.5 r s w) i j
        = GPGPUWater.cell w i j).
Proof.
  intros uv Hout.
  assert (Hin : WaterEngine.inPool uv = false).
  { destruct (WaterEngine.inPool uv) eqn:E; [|reflexivity].
    apply inPool_iff in E. contradiction. }
  assert (Hop : WaterEngine.outOfPool uv = true).
  { destruct (WaterEngine.outOfPool uv) eqn:E; [reflexivity|].
    apply outOfPool_iff in E. contradiction. }
  repeat split.
  - unfold WaterEngine.onPointerDown.
    destruct (WaterEngine.sphereHit ray); [reflexivity|].
    fold uv. rewrite Hin. reflexivity.
  - unfold WaterEngine.onPointerMove.
    destruct (WaterEngine.isDraggingSphere e); [reflexivity|].
    destruct (WaterEngine.sphereHit ray); [reflexivity|].
    fold uv. rewrite Hop. reflexivity.
  - intros Hdrag. unfold WaterEngine.onPointerMove. rewrite Hdrag.
    destruct (WaterEngine.sphereHit ray); [reflexivity|].
    fold uv. rewrite Hop. reflexivity.
  - intros r s w i j Hr Hcell.
    rewrite addDrop_texel by exact Hcell.
    rewrite drop_outside.
    + unfold set_r, GPGPUWater.height.
      destruct (GPGPUWater.cell w i j) as [h v nx nz].
      cbn [chan_r chan_g chan_b chan_a]. f_equal. ring.
    + lra.
    + pose proof (cell_far_from_outside_center w i j Hcell). lra.
Qed.

End PoolBounds.

(** ** Concrete runs *)

Lemma sqrt_below (x b : R) : 0 < b -> 0 <= x < b * b -> sqrt x < b.
Proof.
  intros Hb Hx.
  replace b with (sqrt (b * b)) by (apply sqrt_square; lra).
  apply sqrt_lt_1_alt. exact Hx.
Qed.

Lemma INR_127 : INR 127 = 127.
Proof. rewrite INR_IZR_INZ. reflexivity. Qed.
Lemma INR_128 : INR 128 = 128.
Proof. rewrite INR_IZR_INZ. reflexivity. Qed.
Lemma INR_64 : INR 64 = 64.
Proof. rewrite INR_IZR_INZ. reflexivity. Qed.

Lemma restSim_inGrid (i j : nat) :
  (i < 128)%nat -> (j < 128)%nat -> Grid.inGrid Examples.restSim i j.
Proof. intros Hi Hj. split; assumption. Qed.

(** C6 as stated fails: on the engine's grid at rest, [addDrop 1.5 0.5 1 1]
    raises the cell in column 127, row 64. *)
Lemma addDrop_outside_center_changes_grid :
  GPGPUWater.height
    (GPGPUWater.addDrop (S := linearSampler) 1.5 0.5 1 1 Examples.restSim)
    127 64
  <> GPGPUWater.height Examples.restSim 127 64.
Proof.
  assert (Hin : Grid.inGrid Examples.restSim 127 64)
    by (apply restSim_inGrid; lia).
  rewrite (addDrop_height (S := linearSampler) 1.5 0.5 1 1
             Examples.restSim 127 64 Hin).
  assert (Hpos : 0 < Shaders.drop (GPGPUWater.cellUV Examples.restSim 127 64)
                               (mkVec2 1.5 0.5) 1).
  { apply drop_inside; [lra|].
    unfold GPGPUWater.cellUV, fragCoord, Spec.distance, Examples.restSim,
      GPGPUWater.create. cbn [GPGPUWater.size v2x v2y].
    rewrite INR_127, INR_128, INR_64.
    apply sqrt_below; lra.
  }
  lra.
Qed.

(** C7 as stated fails: with the cursor still on [last], the distance is 0
    and [ceil (0 / 0.015) = 0], yet the handler makes one call to [addDrop],
    which raises the cell in column 64, row 64 of the grid at rest. *)
Lemma pointerMove_in_place_injects_once :
  let e := Examples.engineAt (mkVec3 0 0.3 0) false (Some (mkVec2 0.5 0.5)) in
  let ray := Examples.rayAt (mkVec3 0 0 0) in
  let currentUv := WaterEngine.pointUV e (WaterEngine.waterPoint ray) in
  currentUv = mkVec2 0.5 0.5
  /\ Z.to_nat (Spec.trailCount (Spec.distance (mkVec2 0.5 0.5) currentUv)) = 0%nat
  /\ length (WaterEngine.trailDrops (WaterEngine.interactionStrength e)
               (mkVec2 0.5 0.5) currentUv) = 1%nat
  /\ GPGPUWater.height
       (WaterEngine.waterSim
          (WaterEngine.onPointerMove (S := linearSampler) ray e)) 64 64
     <> GPGPUWater.height (WaterEngine.waterSim e) 64 64.
Proof.
  intros e ray currentUv.
  assert (Huv : currentUv = mkVec2 0.5 0.5).
  { unfold currentUv, WaterEngine.pointUV, e, ray, Examples.engineAt,
      Examples.rayAt; cbn [WaterEngine.poolSize WaterEngine.waterPoint v3x v3z].
    f_equal; lra. }
  assert (Hdist : Spec.distance (mkVec2 0.5 0.5) (mkVec2 0.5 0.5) = 0).
  { unfold Spec.distance; cbn [v2x v2y].
    replace ((0.5 - 0.5) ^ 2 + (0.5 - 0.5) ^ 2) with 0 by lra.
    apply sqrt_0. }
  assert (Hceil : Spec.trailCount 0 = 0%Z).
  { unfold Spec.trailCount. replace (0 / 0.015) with 0 by lra.
    apply Zceil_eq. lra. }
  assert (Hseg : WaterEngine.trailSegments 0 = 1%nat).
  { unfold WaterEngine.trailSegments. fold (Spec.trailCount 0).
    rewrite Hceil. reflexivity. }
  split; [exact Huv|]. rewrite Huv, Hdist, Hceil.
  split; [reflexivity|].
  split.
  { rewrite trailDrops_length, trailDist_distance, Hdist. exact Hseg. }
  assert (Hin : Grid.inGrid Examples.restSim 64 64)
    by (apply restSim_inGrid; lia).
  unfold WaterEngine.onPointerMove.
  change (WaterEngine.isDraggingSphere e) with false.
  change (WaterEngine.sphereHit ray) with (@None vec3).
  fold currentUv. rewrite Huv.
  assert (Hout : WaterEngine.outOfPool (mkVec2 0.5 0.5) = false).
  { apply outOfPool_iff. cbn [v2x v2y]. lra. }
  rewrite Hout.
  change (WaterEngine.lastWaterInteractionPoint e) with (Some (mkVec2 0.5 0.5)).
  cbn [WaterEngine.setLast WaterEngine.waterSim].
  unfold WaterEngine.trailDrops. cbv zeta.
  rewrite trailDist_distance, Hdist, Hseg.
  cbn [seq map fold_left WaterEngine.applyDrop WaterEngine.drop_center
       WaterEngine.drop_radius WaterEngine.drop_strength].
  change (WaterEngine.waterSim e) with Examples.restSim.
  unfold WaterEngine.applyDrop.
  cbn [WaterEngine.drop_center WaterEngine.drop_radius
       WaterEngine.drop_strength].
  set (c := THREE.lerp2 _ _ _).
  set (s := WaterEngine.trailStrength _ _).
  rewrite (addDrop_height (S := linearSampler) (v2x c) (v2y c) 0.02 s
             Examples.restSim 64 64 Hin).
  assert (Hs : s = 0.01).
  { unfold s, WaterEngine.trailStrength, e, Examples.engineAt.
    cbn [WaterEngine.interactionStrength]. rewrite Rmin_right; lra. }
  assert (Hc : mkVec2 (v2x c) (v2y c) = mkVec2 0.5 0.5).
  { unfold c, THREE.lerp2; cbn [v2x v2y]. f_equal; lra. }
  rewrite Hc, Hs.
  assert (Hpos : 0 < Shaders.drop (GPGPUWater.cellUV Examples.restSim 64 64)
                               (mkVec2 0.5 0.5) 0.02).
  { apply drop_inside; [lra|].
    unfold GPGPUWater.cellUV, fragCoord, Spec.distance, Examples.restSim,
      GPGPUWater.create. cbn [GPGPUWater.size v2x v2y].
    rewrite INR_128, INR_64.
    apply sqrt_below; lra. }
  nra.
Qed.

(** C9 as stated fails for pointer-leave: a body drag in progress is still
    in progress after it. *)
Lemma pointerLeave_keeps_drag :
  let e := Examples.engineAt (mkVec3 0 0.3 0) true None in
  WaterEngine.isDraggingSphere (WaterEngine.onPointerLeave e) = true
  /\ WaterEngine.gesture (WaterEngine.onPointerLeave e) <> WaterEngine.Idle.
Proof. split; [reflexivity | discriminate]. Qed.

(** Under the centre of the sphere the built-ins are taken at zero, so the
    volume there is the same with every driver: [2 * 0.1]. *)
Lemma float32_volume_under_centre {B : Float32.Builtins} :
  Float32.volumeInSphere (Float32.lit 1 4) (Float32.fragCoord 128 64 64)
    (Float32.mkVec3 (Float32.lit 1 128) (Float32.ofZ 0) (Float32.lit 1 128))
  = Float32.lit 1 5.
Proof.
  unfold Float32.volumeInSphere. cbv zeta.
  match goal with
  | |- context [Float32.pow ?a _] =>
      assert (E : a = SpecFloat.S754_zero false) by (vm_compute; reflexivity);
      rewrite E
  end.
  rewrite Float32.pow_zero.
  change (Float32.opp (SpecFloat.S754_zero false))
    with (SpecFloat.S754_zero true).
  rewrite Float32.exp_zero.
  vm_compute. reflexivity.
Qed.

(** A sheet of water at height 0.1 under the centre of a sphere of radius
    0.25: the pass with equal centres leaves it one unit in the last place
    higher. *)
Lemma float32_residue_under_centre {B : Float32.Builtins} :
  Float32.chan_r
    (Float32.moveSphere
       (Float32.mkVec3 (Float32.lit 1 128) (Float32.ofZ 0) (Float32.lit 1 128))
       (Float32.mkVec3 (Float32.lit 1 128) (Float32.ofZ 0) (Float32.lit 1 128))
       (Float32.lit 1 4) 128 (Float32.sheet (Float32.lit 1 10)) 64%nat 64%nat)
  = SpecFloat.S754_finite false 13421774 (-27)
  /\ Float32.lit 1 10 = SpecFloat.S754_finite false 13421773 (-27).
Proof.
  split; [|vm_compute; reflexivity].
  unfold Float32.moveSphere, Float32.sphereShaderFs. cbv zeta.
  cbn [Float32.set_r Float32.chan_r Float32.sheet].
  rewrite float32_volume_under_centre.
  vm_compute. reflexivity.
Qed.

(** So [moveSphere P P r] changes a height, and does so whatever the driver
    makes of [exp] and [pow]. *)
Lemma moveSphere_same_center_changes_height :
  ~ exists B : Float32.Builtins,
      Float32.eqb
        (Float32.chan_r
           (Float32.moveSphere (B := B)
              (Float32.mkVec3 (Float32.lit 1 128) (Float32.ofZ 0)
                 (Float32.lit 1 128))
              (Float32.mkVec3 (Float32.lit 1 128) (Float32.ofZ 0)
                 (Float32.lit 1 128))
              (Float32.lit 1 4) 128 (Float32.sheet (Float32.lit 1 10))
              64%nat 64%nat))
        (Float32.chan_r (Float32.sheet (Float32.lit 1 10) 64%nat 64%nat))
      = true.
Proof.
  intros [B H].
  rewrite (proj1 (float32_residue_under_centre (B := B))) in H.
  vm_compute in H. discriminate H.
Qed.

(** ** The theorems at concrete inputs *)

Lemma step_wave_update_witness :
  Grid.inGrid Examples.restSim 5 7
  /\ GPGPUWater.height (GPGPUWater.step (S := linearSampler) Examples.restSim) 5 7
     = Spec.height' (GPGPUWater.height Examples.restSim 5 7)
         (GPGPUWater.velocity
            (GPGPUWater.step (S := linearSampler) Examples.restSim) 5 7).
Proof.
  assert (Hin : Grid.inGrid Examples.restSim 5 7)
    by (split; simpl; lia).
  split; [exact Hin|].
  exact (proj1 (proj2 (step_wave_update (S := linearSampler)
                         Examples.restSim 5 7 Hin))).
Defined.


Lemma moveSphere_displacement_witness :
  0 < 0.25
  /\ Grid.inGrid Examples.restSim 64 64
  /\ GPGPUWater.height
       (GPGPUWater.moveSphere (S := linearSampler) (mkVec3 0 0.3 0)
          (mkVec3 0 0.2 0) 0.25 Examples.restSim) 64 64
     = GPGPUWater.height Examples.restSim 64 64
       + Spec.V 0.1 0.25 (GPGPUWater.cellUV Examples.restSim 64 64)
           (mkVec3 0 0.3 0)
       - Spec.V 0.1 0.25 (GPGPUWater.cellUV Examples.restSim 64 64)
           (mkVec3 0 0.2 0).
Proof.
  assert (Hr : 0 < 0.25) by lra.
  assert (Hin : Grid.inGrid Examples.restSim 64 64)
    by (split; simpl; lia).
  split; [exact Hr|]. split; [exact Hin|].
  exact (proj1 (moveSphere_displacement (S := linearSampler) (mkVec3 0 0.3 0)
                  (mkVec3 0 0.2 0) 0.25 Examples.restSim 64 64 Hr Hin)).
Defined.

Lemma rest_invariant_witness :
  Grid.atRest Examples.restSim
  /\ Grid.atRest
       (Nat.iter 3 (GPGPUWater.step (S := nearestSampler))
          (GPGPUWater.setDamping 2 Examples.restSim)).
Proof.
  assert (Hrest : Grid.atRest Examples.restSim).
  { intros i j _. split; reflexivity. }
  split; [exact Hrest|].
  exact (rest_invariant (S := nearestSampler) 2 3 Examples.restSim Hrest).
Defined.

Lemma moveSphere_same_center_float32_witness :
  Float32.chan_r
    (Float32.moveSphere (B := Float32.exactAtZero)
       (Float32.mkVec3 (Float32.lit 1 128) (Float32.ofZ 0) (Float32.lit 1 128))
       (Float32.mkVec3 (Float32.lit 1 128) (Float32.ofZ 0) (Float32.lit 1 128))
       (Float32.lit 1 4) 128 (Float32.sheet (Float32.ofZ 0)) 64%nat 64%nat)
  = SpecFloat.S754_zero false.
Proof.
  refine (proj1 (proj2 (proj2 (proj2 (proj2
            (moveSphere_same_center_float32 (B := Float32.exactAtZero)
               (Float32.mkVec3 (Float32.lit 1 128) (Float32.ofZ 0)
                  (Float32.lit 1 128))
               (Float32.lit 1 4) 128 (Float32.sheet (Float32.ofZ 0))
               64 64))))) _ _); vm_compute; reflexivity.
Defined.

Lemma passes_frame_witness :
  Grid.inGrid Examples.restSim 0 127
  /\ GPGPUWater.normalX (GPGPUWater.step (S := nearestSampler) Examples.restSim)
       0 127
     = GPGPUWater.normalX Examples.restSim 0 127.
Proof.
  assert (Hin : Grid.inGrid Examples.restSim 0 127)
    by (split; simpl; lia).
  split; [exact Hin|].
  exact (proj1 (proj1 (passes_frame (S := nearestSampler) Examples.restSim
                         0 127 Hin))).
Defined.

Lemma out_of_pool_injection_witness :
  let e := Examples.engineAt (mkVec3 0 0.3 0) false None in
  let ray := Examples.rayAt (mkVec3 2 0 0) in
  WaterEngine.pointUV e (WaterEngine.waterPoint ray) = mkVec2 1.5 0.5
  /\ WaterEngine.waterSim (WaterEngine.onPointerDown (S := linearSampler) ray e)
     = WaterEngine.waterSim e.
Proof.
  intros e ray.
  assert (Huv : WaterEngine.pointUV e (WaterEngine.waterPoint ray)
                = mkVec2 1.5 0.5).
  { unfold WaterEngine.pointUV; simpl. f_equal; lra. }
  split; [exact Huv|].
  refine (proj1 (out_of_pool_injection (S := linearSampler) ray e _)).
  rewrite Huv; simpl. lra.
Defined.

Lemma pointerMove_trail_witness :
  let e := Examples.engineAt (mkVec3 0 0.3 0) false (Some (mkVec2 0.1 0.1)) in
  let ray := Examples.rayAt (mkVec3 (-0.8) 0 0.5) in
  WaterEngine.lastWaterInteractionPoint
    (WaterEngine.onPointerMove (S := linearSampler) ray e)
  = Some (WaterEngine.pointUV e (WaterEngine.waterPoint ray)).
Proof.
  intros e ray.
  refine (proj1 (proj2 (pointerMove_trail (S := linearSampler) ray e
                          (mkVec2 0.1 0.1) eq_refl eq_refl eq_refl _))).
  unfold WaterEngine.pointUV; simpl. lra.
Defined.

Lemma submergedRatio_clamp_witness :
  0 < 0.25 /\ WaterEngine.submergedRatio 0.25 0 = 0.5.
Proof.
  assert (Hr : 0 < 0.25) by lra.
  split; [exact Hr|].
  exact (proj2 (proj2 (proj2 (submergedRatio_clamp 0.25 0 Hr)))).
Defined.

(** * Further properties of the code *)

(** ** The passes *)

Lemma drop_range (uv c : vec2) (radius : R) : 0 <= Shaders.drop uv c radius <= 1.
Proof.
  unfold Shaders.drop. cbv zeta. rewrite length2_distance.
  pose proof (COS_bound (Rmax 0 (1 - Spec.distance uv c / radius) * Shaders.PI)).
  lra.
Qed.

(** The column volume of the displacement shader never looks at the height
    of the sphere's centre. *)
Lemma volumeInSphere_closed (radius : R) (uv : vec2) (center : vec3) :
  Shaders.volumeInSphere radius uv center
  = 0.2 * exp (- GLSL.pow
                   (length2 (sub2 (mkVec2 (v2x uv * 2 - 1) (v2y uv * 2 - 1))
                                  (xz center)) / radius * 1.5) 6).
Proof.
  unfold Shaders.volumeInSphere. cbv zeta.
  change (xz (mkVec3 (v2x uv * 2 - 1) 0 (v2y uv * 2 - 1)))
    with (mkVec2 (v2x uv * 2 - 1) (v2y uv * 2 - 1)).
  set (d := exp _).
  assert (Hd : 0 < d) by apply exp_pos.
  unfold Rmin, Rmax.
  repeat (destruct (Rle_dec _ _)); lra.
Qed.

Section MorePasses.
Context {S : Sampler}.

(** X1.  With the damping uniform at 0 a step zeroes the velocity of every
    cell and leaves every height as it was. *)
Theorem step_damping_zero (w : GPGPUWater.t) (i j : nat) :
  Grid.inGrid w i j ->
  let w' := GPGPUWater.step (GPGPUWater.setDamping 0 w) in
  GPGPUWater.velocity w' i j = 0
  /\ GPGPUWater.height w' i j = GPGPUWater.height w i j.
Proof.
  intros Hin w'.
  pose proof (step_texel (GPGPUWater.setDamping 0 w) i j Hin) as Hcell.
  cbv zeta in Hcell. fold w' in Hcell.
  unfold GPGPUWater.velocity at 1, GPGPUWater.height at 1.
  rewrite Hcell. cbn [chan_r chan_g].
  unfold Spec.velocity'. cbn [GPGPUWater.setDamping GPGPUWater.u_damping].
  split; [ring|].
  change (GPGPUWater.height (GPGPUWater.setDamping 0 w) i j)
    with (GPGPUWater.height w i j).
  ring.
Qed.

(** X2.  An injection of positive radius moves no height by more than
    [|strength|], wherever its centre is, and never against the sign of
    [strength]: with [strength = 0] it changes nothing. *)
Theorem addDrop_bounded (x y radius strength : R) (w : GPGPUWater.t)
    (i j : nat) :
  0 < radius ->
  Grid.inGrid w i j ->
  let dh := GPGPUWater.height (GPGPUWater.addDrop x y radius strength w) i j
            - GPGPUWater.height w i j in
  Rabs dh <= Rabs strength
  /\ (0 <= strength -> 0 <= dh <= strength)
  /\ (strength <= 0 -> strength <= dh <= 0).
Proof.
  intros _ Hin dh.
  assert (Hdh : dh = Shaders.drop (GPGPUWater.cellUV w i j) (mkVec2 x y) radius
                     * strength).
  { unfold dh. rewrite addDrop_height by exact Hin. ring. }
  pose proof (drop_range (GPGPUWater.cellUV w i j) (mkVec2 x y) radius) as Hd.
  rewrite Hdh. set (d := Shaders.drop _ _ _) in *.
  split; [|split].
  - rewrite Rabs_mult, (Rabs_pos_eq d) by lra.
    pose proof (Rabs_pos strength). nra.
  - intros Hs. nra.
  - intros Hs. nra.
Qed.

End MorePasses.

Section Superposition.
Context {S : Sampler}.

Lemma applyDrop_size (w : GPGPUWater.t) (d : WaterEngine.Drop) :
  GPGPUWater.size (WaterEngine.applyDrop w d) = GPGPUWater.size w.
Proof. reflexivity. Qed.

Lemma applyDrop_texel (w : GPGPUWater.t) (d : WaterEngine.Drop) (i j : nat) :
  Grid.inGrid w i j ->
  GPGPUWater.cell (WaterEngine.applyDrop w d) i j
  = set_r (GPGPUWater.cell w i j)
      (GPGPUWater.height w i j
       + Shaders.drop (GPGPUWater.cellUV w i j) (WaterEngine.drop_center d)
                   (WaterEngine.drop_radius d) * WaterEngine.drop_strength d).
Proof.
  intros Hin. unfold WaterEngine.applyDrop.
  rewrite addDrop_texel by exact Hin.
  destruct d as [[cx cy] r s]. reflexivity.
Qed.

Lemma fold_applyDrop_size (ds : list WaterEngine.Drop) (w : GPGPUWater.t) :
  GPGPUWater.size (fold_left WaterEngine.applyDrop ds w) = GPGPUWater.size w.
Proof.
  revert w. induction ds as [| d ds IH]; intros w; [reflexivity|].
  simpl. rewrite IH. apply applyDrop_size.
Qed.

Lemma fold_applyDrop_texel (ds : list WaterEngine.Drop) (w : GPGPUWater.t)
    (i j : nat) :
  Grid.inGrid w i j ->
  GPGPUWater.cell (fold_left WaterEngine.applyDrop ds w) i j
  = set_r (GPGPUWater.cell w i j)
      (GPGPUWater.height w i j + More.totalDrop (GPGPUWater.cellUV w i j) ds).
Proof.
  revert w. induction ds as [| d ds IH]; intros w Hin.
  - simpl. unfold set_r, GPGPUWater.height.
    destruct (GPGPUWater.cell w i j) as [h v nx nz]; cbn [chan_r chan_g chan_b chan_a].
    f_equal. ring.
  - simpl fold_left.
    assert (Hin' : Grid.inGrid (WaterEngine.applyDrop w d) i j) by exact Hin.
    rewrite (IH _ Hin').
    unfold GPGPUWater.height at 1.
    rewrite applyDrop_texel by exact Hin.
    change (GPGPUWater.cellUV (WaterEngine.applyDrop w d) i j)
      with (GPGPUWater.cellUV w i j).
    unfold set_r; cbn [chan_r chan_g chan_b chan_a]. simpl More.totalDrop.
    f_equal. ring.
Qed.

(** X3.  Injections superpose: after the calls [ds] in a row, each of
    positive radius, every cell's
    height is its old height plus the sum of the pulses of [ds] at that
    cell, and its velocity and normal are as before. *)
Theorem injections_superpose (ds : list WaterEngine.Drop) (w : GPGPUWater.t)
    (i j : nat) :
  Forall (fun d => 0 < WaterEngine.drop_radius d) ds ->
  Grid.inGrid w i j ->
  let w' := fold_left WaterEngine.applyDrop ds w in
  GPGPUWater.height w' i j
  = GPGPUWater.height w i j + More.totalDrop (GPGPUWater.cellUV w i j) ds
  /\ GPGPUWater.velocity w' i j = GPGPUWater.velocity w i j
  /\ GPGPUWater.normalX w' i j = GPGPUWater.normalX w i j
  /\ GPGPUWater.normalZ w' i j = GPGPUWater.normalZ w i j.
Proof.
  intros _ Hin w'.
  unfold GPGPUWater.height at 1, GPGPUWater.velocity at 1,
    GPGPUWater.normalX at 1, GPGPUWater.normalZ at 1.
  unfold w'. rewrite fold_applyDrop_texel by exact Hin.
  repeat split.
Qed.

End Superposition.

(** ** Normals *)

Lemma sqrt_scaled (k s : R) : 0 < k -> 0 <= s -> sqrt (k * k * s) = k * sqrt s.
Proof.
  intros Hk Hs. rewrite sqrt_mult by nra. rewrite sqrt_square by lra. reflexivity.
Qed.

(** The normal of the two tangents [(k, a, 0)] and [(0, b, k)]. *)
Lemma normal_of_tangents (k a b : R) :
  0 < k ->
  normalize (cross (mkVec3 0 b k) (mkVec3 k a 0))
  = mkVec3 (- a / sqrt (a * a + b * b + k * k))
           (k / sqrt (a * a + b * b + k * k))
           (- b / sqrt (a * a + b * b + k * k)).
Proof.
  intros Hk. unfold normalize, cross, length3. cbn [v3x v3y v3z].
  set (L := sqrt (a * a + b * b + k * k)).
  assert (HL : 0 < L) by (apply sqrt_lt_R0; nra).
  replace ((b * 0 - k * a) * (b * 0 - k * a)
           + (k * k - 0 * 0) * (k * k - 0 * 0)
           + (0 * a - b * k) * (0 * a - b * k))
    with (k * k * (a * a + b * b + k * k)) by ring.
  rewrite sqrt_scaled by nra. fold L.
  f_equal; field; lra.
Qed.

Section Normals.
Context {S : Sampler}.

Lemma slopeNorm_pos (w : GPGPUWater.t) (i j : nat) :
  Grid.inGrid w i j -> 0 < More.slopeNorm w i j.
Proof.
  intros [Hi Hj]. unfold More.slopeNorm. apply sqrt_lt_R0.
  assert (HN : 0 < INR (GPGPUWater.size w)) by (apply lt_0_INR; lia).
  assert (0 < 1 / INR (GPGPUWater.size w))
    by (unfold Rdiv; rewrite Rmult_1_l; now apply Rinv_0_lt_compat).
  nra.
Qed.

Lemma updateNormals_closed (w : GPGPUWater.t) (i j : nat) :
  Grid.inGrid w i j ->
  GPGPUWater.cell (GPGPUWater.updateNormals w) i j
  = set_ba (GPGPUWater.cell w i j)
      (mkVec2 (- More.slopeX w i j / More.slopeNorm w i j)
              (- More.slopeZ w i j / More.slopeNorm w i j)).
Proof.
  intros Hin. unfold GPGPUWater.cell at 1, GPGPUWater.updateNormals.
  rewrite read_render. unfold Shaders.normalShaderFs. cbv zeta.
  rewrite own_texel by exact Hin.
  assert (Hk : 0 < v2x (GPGPUWater.u_delta w)).
  { destruct Hin as [Hi _]. unfold GPGPUWater.u_delta; cbn [v2x].
    unfold Rdiv; rewrite Rmult_1_l. apply Rinv_0_lt_compat, lt_0_INR. lia. }
  change (v2y (GPGPUWater.u_delta w)) with (v2x (GPGPUWater.u_delta w)).
  rewrite normal_of_tangents by exact Hk.
  unfold xz, More.slopeX, More.slopeZ, More.slopeNorm, Grid.sampledHeight,
    GPGPUWater.height, GPGPUWater.cellUV, add2, GPGPUWater.u_delta.
  cbn [v2x v2y v3x v3y v3z]. rewrite !Rplus_0_r. reflexivity.
Qed.

(** X7.  [updateNormals] stores, for every cell,
    [normalX = - sx / L] and [normalZ = - sz / L], where [sx] and [sz] are
    the height differences to the right and upwards and
    [L = sqrt (sx^2 + sz^2 + (1/N)^2)]: the normal leans against the slope,
    and [normalX^2 + normalZ^2 < 1]. *)
Theorem updateNormals_slopes (w : GPGPUWater.t) (i j : nat) :
  Grid.inGrid w i j ->
  let w' := GPGPUWater.updateNormals w in
  GPGPUWater.normalX w' i j = - More.slopeX w i j / More.slopeNorm w i j
  /\ GPGPUWater.normalZ w' i j = - More.slopeZ w i j / More.slopeNorm w i j
  /\ GPGPUWater.normalX w' i j * GPGPUWater.normalX w' i j
     + GPGPUWater.normalZ w' i j * GPGPUWater.normalZ w' i j < 1.
Proof.
  intros Hin w'.
  unfold GPGPUWater.normalX, GPGPUWater.normalZ, w'.
  rewrite updateNormals_closed by exact Hin. cbn [set_ba chan_b chan_a v2x v2y].
  split; [reflexivity|]. split; [reflexivity|].
  pose proof (slopeNorm_pos w i j Hin) as HL.
  assert (HLL : More.slopeNorm w i j * More.slopeNorm w i j
                = More.slopeX w i j * More.slopeX w i j
                  + More.slopeZ w i j * More.slopeZ w i j
                  + (1 / INR (GPGPUWater.size w)) * (1 / INR (GPGPUWater.size w))).
  { unfold More.slopeNorm. apply sqrt_sqrt.
    assert (0 <= (1 / INR (GPGPUWater.size w)) * (1 / INR (GPGPUWater.size w)))
      by apply Rle_0_sqr. nra. }
  assert (Hk : 0 < 1 / INR (GPGPUWater.size w)).
  { destruct Hin as [Hi _]. unfold Rdiv; rewrite Rmult_1_l.
    apply Rinv_0_lt_compat, lt_0_INR. lia. }
  set (L := More.slopeNorm w i j) in *.
  set (a := More.slopeX w i j) in *. set (b := More.slopeZ w i j) in *.
  set (k := 1 / INR (GPGPUWater.size w)) in *.
  replace (- a / L * (- a / L) + - b / L * (- b / L))
    with ((a * a + b * b) / (L * L)) by (field; lra).
  apply (Rmult_lt_reg_r (L * L)); [nra|].
  unfold Rdiv. rewrite Rmult_assoc, Rinv_l by nra. nra.
Qed.

(** X8.  Where the height is the same everywhere, [updateNormals] stores the
    vertical normal: [normalX = normalZ = 0] in every cell. *)
Theorem updateNormals_flat (w : GPGPUWater.t) (c : R) (i j : nat) :
  (forall a b, Grid.inGrid w a b -> GPGPUWater.height w a b = c) ->
  Grid.inGrid w i j ->
  GPGPUWater.normalX (GPGPUWater.updateNormals w) i j = 0
  /\ GPGPUWater.normalZ (GPGPUWater.updateNormals w) i j = 0.
Proof.
  intros Hflat Hin.
  assert (HN : (0 < GPGPUWater.size w)%nat) by (destruct Hin; lia).
  assert (Hs : forall uv, Grid.sampledHeight w uv = c).
  { intros uv. unfold Grid.sampledHeight. apply texture2D_flat; [exact HN|].
    intros a b Ha Hb. apply (Hflat a b). split; assumption. }
  unfold GPGPUWater.normalX, GPGPUWater.normalZ.
  rewrite updateNormals_closed by exact Hin. cbn [set_ba chan_b chan_a v2x v2y].
  unfold More.slopeX, More.slopeZ. cbv zeta. rewrite !Hs, (Hflat i j Hin).
  unfold Rdiv. split; ring.
Qed.

(** X9.  The surface shader gets back the whole normal: rebuilt from the two
    stored components, [simNormal] is the unit vector
    [(- sx, 1/N, - sz) / L] that the normal shader computed, vertical
    component included. *)
Theorem simNormal_roundtrip (w : GPGPUWater.t) (i j : nat) :
  Grid.inGrid w i j ->
  let L := More.slopeNorm w i j in
  Render.simNormal (GPGPUWater.cell (GPGPUWater.updateNormals w) i j)
  = mkVec3 (- More.slopeX w i j / L)
           (1 / INR (GPGPUWater.size w) / L)
           (- More.slopeZ w i j / L)
  /\ length3 (Render.simNormal
                (GPGPUWater.cell (GPGPUWater.updateNormals w) i j)) = 1.
Proof.
  intros Hin L.
  rewrite updateNormals_closed by exact Hin.
  unfold Render.simNormal, Render.dot2. cbn [set_ba chan_b chan_a v2x v2y].
  pose proof (slopeNorm_pos w i j Hin) as HL. fold L in HL.
  assert (Hk : 0 < 1 / INR (GPGPUWater.size w)).
  { destruct Hin as [Hi _]. unfold Rdiv; rewrite Rmult_1_l.
    apply Rinv_0_lt_compat, lt_0_INR. lia. }
  assert (HLL : L * L
                = More.slopeX w i j * More.slopeX w i j
                  + More.slopeZ w i j * More.slopeZ w i j
                  + (1 / INR (GPGPUWater.size w)) * (1 / INR (GPGPUWater.size w))).
  { unfold L, More.slopeNorm. apply sqrt_sqrt.
    assert (0 <= (1 / INR (GPGPUWater.size w)) * (1 / INR (GPGPUWater.size w)))
      by apply Rle_0_sqr. nra. }
  fold L.
  set (a := More.slopeX w i j) in *. set (b := More.slopeZ w i j) in *.
  set (k := 1 / INR (GPGPUWater.size w)) in *.
  assert (Hy : sqrt (1 - (- a / L * (- a / L) + - b / L * (- b / L))) = k / L).
  { replace (1 - (- a / L * (- a / L) + - b / L * (- b / L)))
      with ((k / L) * (k / L)).
    - apply sqrt_square. unfold Rdiv. apply Rmult_le_pos; [lra|].
      left. now apply Rinv_0_lt_compat.
    - apply (Rmult_eq_reg_r (L * L)); [|nra]. field_simplify; [|lra|lra]. nra. }
  rewrite Hy.
  assert (Hlen : length3 (mkVec3 (- a / L) (k / L) (- b / L)) = 1).
  { unfold length3; cbn [v3x v3y v3z].
    replace (- a / L * (- a / L) + k / L * (k / L) + - b / L * (- b / L))
      with 1.
    - apply sqrt_1.
    - apply (Rmult_eq_reg_r (L * L)); [|nra]. field_simplify; [|lra]. nra. }
  assert (Hone : forall x : R, x / 1 = x) by (intros x; field).
  unfold normalize. rewrite Hlen. cbn [v3x v3y v3z]. rewrite !Hone.
  split; [reflexivity | exact Hlen].
Qed.

End Normals.

(** ** The sphere *)

Lemma clamp_between (v lo hi : R) :
  lo <= hi -> lo <= THREE.clamp v lo hi <= hi.
Proof.
  intros H. unfold THREE.clamp, Rmax, Rmin.
  repeat (destruct (Rle_dec _ _)); lra.
Qed.

Lemma spherePhysics_above_floor (e : WaterEngine.t) :
  - WaterEngine.poolHeight e + WaterEngine.sphereRadius e
  <= v3y (fst (WaterEngine.spherePhysics e)).
Proof.
  unfold WaterEngine.spherePhysics. cbv zeta.
  set (v := THREE.multiplyScalar _ _).
  destruct (Rlt_dec (v3y (THREE.add3 (WaterEngine.sphere_position e) v)) _)
    as [Hbelow | Hok]; [|cbn [fst]; lra].
  destruct (Rlt_dec (v3y v) 0); cbn [fst v3y]; lra.
Qed.

(** X10.  A physics step either moves the sphere by the velocity it ends
    with, or puts it on the pool floor [y = - poolHeight + sphereRadius]
    with a velocity that does not point down; it never leaves the sphere
    below the floor. *)
Theorem spherePhysics_floor (e : WaterEngine.t) :
  let p := fst (WaterEngine.spherePhysics e) in
  let v := snd (WaterEngine.spherePhysics e) in
  let floorY := - WaterEngine.poolHeight e + WaterEngine.sphereRadius e in
  floorY <= v3y p
  /\ (p = THREE.add3 (WaterEngine.sphere_position e) v
      \/ (v3y p = floorY /\ 0 <= v3y v)).
Proof.
  unfold WaterEngine.spherePhysics. cbv zeta.
  set (r := WaterEngine.submergedRatio _ _).
  set (v1 := if Rlt_dec 0 r then _ else _).
  set (v2 := THREE.multiplyScalar v1 _).
  destruct (Rlt_dec (v3y (THREE.add3 (WaterEngine.sphere_position e) v2)) _)
    as [Hbelow | Hok].
  - destruct (Rlt_dec (v3y v2) 0) as [Hdown | Hup]; cbn [fst snd v3y].
    + split; [lra|]. right. split; [reflexivity | lra].
    + split; [lra|]. right. split; [reflexivity | lra].
  - cbn [fst snd]. split; [lra | left; reflexivity].
Qed.

Lemma spherePhysics_horizontal (e : WaterEngine.t) :
  v3x (WaterEngine.sphereVelocity e) = 0 ->
  v3z (WaterEngine.sphereVelocity e) = 0 ->
  let p := fst (WaterEngine.spherePhysics e) in
  let v := snd (WaterEngine.spherePhysics e) in
  v3x p = v3x (WaterEngine.sphere_position e)
  /\ v3z p = v3z (WaterEngine.sphere_position e)
  /\ v3x v = 0 /\ v3z v = 0.
Proof.
  intros Hx Hz. unfold WaterEngine.spherePhysics. cbv zeta.
  set (r := WaterEngine.submergedRatio _ _).
  set (k := THREE.lerp _ _ r).
  repeat (destruct (Rlt_dec _ _)); cbn [fst snd v3x v3y v3z THREE.add3
    THREE.multiplyScalar]; rewrite ?Hx, ?Hz; repeat split; ring.
Qed.

Section EngineInvariant.
Context {S : Sampler}.

Lemma framePhysics_spec (e : WaterEngine.t) :
  More.Invariant e ->
  let p := fst (Lifecycle.framePhysics e) in
  let v := snd (Lifecycle.framePhysics e) in
  v3x p = v3x (WaterEngine.sphere_position e)
  /\ v3z p = v3z (WaterEngine.sphere_position e)
  /\ -0.75 <= v3y p
  /\ v3x v = 0 /\ v3z v = 0.
Proof.
  intros Hinv. unfold Lifecycle.framePhysics.
  destruct (negb (WaterEngine.isDraggingSphere e)
            && WaterEngine.gravityEnabled e).
  - destruct (spherePhysics_horizontal e (More.inv_velocity_x e Hinv)
                (More.inv_velocity_z e Hinv)) as (Hx & Hz & Hvx & Hvz).
    pose proof (spherePhysics_above_floor e) as Hfloor.
    rewrite (More.inv_poolHeight e Hinv), (More.inv_radius e Hinv) in Hfloor.
    repeat split; try assumption. lra.
  - destruct (WaterEngine.isDraggingSphere e); cbn [fst snd v3x v3z];
      repeat split; try reflexivity;
      try apply (More.inv_sphere_y e Hinv);
      try apply (More.inv_velocity_x e Hinv);
      try apply (More.inv_velocity_z e Hinv).
Qed.

Lemma animate_unpaused (delta : R) (e : WaterEngine.t) :
  WaterEngine.isPaused e = false ->
  WaterEngine.waterSim (WaterEngine.animate delta e)
  = GPGPUWater.updateNormals (GPGPUWater.step (Lifecycle.frameDisplaced delta e))
  /\ WaterEngine.sphere_position (WaterEngine.animate delta e)
     = fst (Lifecycle.framePhysics e)
  /\ WaterEngine.sphereVelocity (WaterEngine.animate delta e)
     = snd (Lifecycle.framePhysics e)
  /\ WaterEngine.oldSpherePos (WaterEngine.animate delta e)
     = (if Rlt_dec 0.001 (THREE.distanceTo3 (WaterEngine.oldSpherePos e)
                            (fst (Lifecycle.framePhysics e)))
        then fst (Lifecycle.framePhysics e)
        else WaterEngine.oldSpherePos e).
Proof.
  intros Hp. unfold WaterEngine.animate, Lifecycle.frameDisplaced,
    Lifecycle.frameWind, Lifecycle.framePhysics, Lifecycle.windDrops.
  rewrite Hp. cbv zeta.
  destruct (if negb (WaterEngine.isDraggingSphere e)
               && WaterEngine.gravityEnabled e
            then WaterEngine.spherePhysics e
            else if WaterEngine.isDraggingSphere e
                 then (WaterEngine.sphere_position e, mkVec3 0 0 0)
                 else (WaterEngine.sphere_position e,
                       WaterEngine.sphereVelocity e)) as [pos vel].
  cbn [fst snd fold_left WaterEngine.applyDrop WaterEngine.drop_center
       WaterEngine.drop_radius WaterEngine.drop_strength v2x v2y].
  destruct (Rlt_dec 0.001 (THREE.distanceTo3 (WaterEngine.oldSpherePos e) pos));
    repeat split.
Qed.

Lemma animate_fields (delta : R) (e : WaterEngine.t) :
  WaterEngine.sphereRadius (WaterEngine.animate delta e)
  = WaterEngine.sphereRadius e
  /\ WaterEngine.poolSize (WaterEngine.animate delta e) = WaterEngine.poolSize e
  /\ WaterEngine.poolHeight (WaterEngine.animate delta e)
     = WaterEngine.poolHeight e
  /\ GPGPUWater.size (WaterEngine.waterSim (WaterEngine.animate delta e))
     = GPGPUWater.size (WaterEngine.waterSim e)
  /\ WaterEngine.lastWaterInteractionPoint (WaterEngine.animate delta e)
     = WaterEngine.lastWaterInteractionPoint e.
Proof.
  unfold WaterEngine.animate.
  destruct (WaterEngine.isPaused e); [repeat split|]. cbv zeta.
  destruct (if negb (WaterEngine.isDraggingSphere e)
               && WaterEngine.gravityEnabled e
            then WaterEngine.spherePhysics e
            else if WaterEngine.isDraggingSphere e
                 then (WaterEngine.sphere_position e, mkVec3 0 0 0)
                 else (WaterEngine.sphere_position e,
                       WaterEngine.sphereVelocity e)) as [pos vel].
  destruct (Rlt_dec 0.001 (THREE.distanceTo3 (WaterEngine.oldSpherePos e) pos));
    repeat split.
Qed.

Lemma invariant_create : More.Invariant Lifecycle.create.
Proof.
  constructor; unfold Lifecycle.create;
    cbn [WaterEngine.sphereRadius WaterEngine.poolSize WaterEngine.poolHeight
         WaterEngine.waterSim WaterEngine.sphereVelocity
         WaterEngine.sphere_position WaterEngine.lastWaterInteractionPoint
         v3x v3y v3z]; try reflexivity; try lra.
  intros uv H; discriminate.
Qed.

Lemma invariant_handle (e : WaterEngine.t) (ev : Lifecycle.Event) :
  More.Invariant e -> More.Invariant (Lifecycle.handle e ev).
Proof.
  intros Hinv. pose proof Hinv as [Hr Hs Hh Hn Hvx Hvz Hx Hz Hy Hl].
  destruct ev as [ray | ray | | | delta | b | b | v | v | v | v];
    cbn [Lifecycle.handle].
  - (* onPointerDown *)
    unfold WaterEngine.onPointerDown.
    destruct (WaterEngine.sphereHit ray); [constructor; assumption|].
    destruct (WaterEngine.inPool _); [constructor; assumption | exact Hinv].
  - (* onPointerMove *)
    unfold WaterEngine.onPointerMove.
    destruct (WaterEngine.isDraggingSphere e) eqn:Hdrag.
    + constructor;
        cbn [WaterEngine.sphereRadius WaterEngine.poolSize
             WaterEngine.poolHeight WaterEngine.waterSim
             WaterEngine.sphereVelocity WaterEngine.sphere_position
             WaterEngine.lastWaterInteractionPoint THREE.clamp3 v3x v3y v3z];
        try assumption; rewrite ?Hr, ?Hs, ?Hh.
      all: match goal with
           | |- context [THREE.clamp ?v ?lo ?hi] =>
               pose proof (clamp_between v lo hi ltac:(lra)); lra
           end.
    + destruct (WaterEngine.sphereHit ray).
      * constructor; try assumption. intros uv H; discriminate.
      * destruct (WaterEngine.outOfPool _) eqn:Hout.
        -- constructor; try assumption. intros uv H; discriminate.
        -- apply outOfPool_iff in Hout.
           destruct (WaterEngine.lastWaterInteractionPoint e) as [last|].
           ++ constructor; try assumption.
              ** cbn [WaterEngine.setLast WaterEngine.waterSim].
                 rewrite fold_applyDrop_size. exact Hn.
              ** intros uv H. injection H as <-. exact Hout.
           ++ constructor; try assumption.
              intros uv H. injection H as <-. exact Hout.
  - constructor; try assumption. intros uv H; discriminate.
  - constructor; try assumption. intros uv H; discriminate.
  - (* animate *)
    destruct (animate_fields delta e) as (Er & Es & Eh & En & El).
    destruct (WaterEngine.isPaused e) eqn:Hp.
    + unfold WaterEngine.animate. rewrite Hp. exact Hinv.
    + destruct (animate_unpaused delta e Hp) as (_ & Epos & Evel & _).
      destruct (framePhysics_spec e Hinv) as (Px & Pz & Py & Pvx & Pvz).
      constructor; rewrite ?Er, ?Es, ?Eh, ?En, ?El, ?Epos, ?Evel;
        try assumption; try (rewrite ?Px, ?Pz; assumption).
  - constructor; assumption.
  - constructor; assumption.
  - constructor; assumption.
  - constructor; assumption.
  - constructor; assumption.
  - constructor; assumption.
Qed.

Lemma invariant_fold (evs : list Lifecycle.Event) (e : WaterEngine.t) :
  More.Invariant e -> More.Invariant (fold_left Lifecycle.handle evs e).
Proof.
  revert e. induction evs as [| ev evs IH]; intros e He; [exact He|].
  simpl. apply IH, invariant_handle, He.
Qed.

Lemma invariant_run (evs : list Lifecycle.Event) :
  More.Invariant (Lifecycle.run evs).
Proof. apply invariant_fold, invariant_create. Qed.

(** X11.  After any sequence of pointer events, frames and setter calls the
    sphere is inside the pool ([|x| <= 0.75], [|z| <= 0.75], [y >= -0.75]),
    its velocity is vertical, [lastWaterInteractionPoint] is null or inside
    the UV square, and the grid is still 128 cells wide. *)
Theorem engine_invariant (evs : list Lifecycle.Event) :
  More.Invariant (Lifecycle.run evs).
Proof.
  induction evs as [| ev evs IH] using rev_ind.
  - apply invariant_create.
  - unfold Lifecycle.run in *. rewrite fold_left_app. simpl.
    apply invariant_handle. exact IH.
Qed.

End EngineInvariant.

Section EngineFrames.
Context {S : Sampler}.

Lemma lerp2_inside (p q : vec2) (t : R) :
  More.inUnitSquare p -> More.inUnitSquare q -> 0 <= t <= 1 ->
  More.inUnitSquare (THREE.lerp2 p q t).
Proof.
  intros [[Hp1 Hp2] [Hp3 Hp4]] [[Hq1 Hq2] [Hq3 Hq4]] Ht.
  unfold More.inUnitSquare, THREE.lerp2; cbn [v2x v2y].
  repeat split; nra.
Qed.

Lemma trailSegments_pos (dist : R) : (1 <= WaterEngine.trailSegments dist)%nat.
Proof. unfold WaterEngine.trailSegments. lia. Qed.

Lemma trailDrops_inside (s : R) (last cur : vec2) (d : WaterEngine.Drop) :
  More.inUnitSquare last -> More.inUnitSquare cur ->
  In d (WaterEngine.trailDrops s last cur) ->
  More.inUnitSquare (WaterEngine.drop_center d).
Proof.
  intros Hl Hc Hd. unfold WaterEngine.trailDrops in Hd. cbv zeta in Hd.
  apply in_map_iff in Hd. destruct Hd as (k & <- & Hk).
  apply in_seq in Hk. cbn [WaterEngine.drop_center].
  apply lerp2_inside; try assumption.
  set (n := WaterEngine.trailSegments _) in *.
  assert (Hn : 0 < INR n) by (apply lt_0_INR; lia).
  assert (Hkn : INR k <= INR n) by (apply le_INR; lia).
  assert (H0 : 0 <= INR k) by apply pos_INR.
  split.
  - unfold Rdiv. apply Rmult_le_pos; [exact H0|]. left. now apply Rinv_0_lt_compat.
  - apply (Rmult_le_reg_r (INR n)); [exact Hn|].
    unfold Rdiv. rewrite Rmult_assoc, Rinv_l by lra. lra.
Qed.

Lemma windDrops_inside (e : WaterEngine.t) (waveTime : R)
    (d : WaterEngine.Drop) :
  In d (Lifecycle.windDrops e waveTime) ->
  More.inUnitSquare (WaterEngine.drop_center d).
Proof.
  unfold Lifecycle.windDrops. intros [<- | [<- | []]];
    unfold More.inUnitSquare; cbn [WaterEngine.drop_center v2x v2y].
  - pose proof (SIN_bound (waveTime * 0.3 + 2)).
    pose proof (COS_bound (waveTime * 0.5 + 1)). lra.
  - pose proof (SIN_bound (waveTime * 0.2 - 1)).
    pose proof (COS_bound (waveTime * 0.4 - 3)). lra.
Qed.

(** X13.  The engine never stamps outside the pool: whatever events came
    before, every [addDrop] an event makes (a click, a drag trail, the wind
    of a frame) has its centre in the UV square.  The calls listed for an
    event are exactly what it applies to the simulation. *)
Theorem engine_injections_inside (evs : list Lifecycle.Event)
    (ev : Lifecycle.Event) :
  let e := Lifecycle.run evs in
  (forall d, In d (Lifecycle.issuedDrops e ev) ->
             More.inUnitSquare (WaterEngine.drop_center d))
  /\ match ev with
     | Lifecycle.Frame delta =>
         WaterEngine.isPaused e = false ->
         WaterEngine.waterSim (Lifecycle.handle e ev)
         = GPGPUWater.updateNormals
             (GPGPUWater.step (Lifecycle.frameDisplaced delta e))
         /\ Lifecycle.frameWind delta e
            = fold_left WaterEngine.applyDrop (Lifecycle.issuedDrops e ev)
                (WaterEngine.waterSim e)
     | Lifecycle.SetDamping v =>
         WaterEngine.waterSim (Lifecycle.handle e ev)
         = GPGPUWater.setDamping v (WaterEngine.waterSim e)
     | _ =>
         WaterEngine.waterSim (Lifecycle.handle e ev)
         = fold_left WaterEngine.applyDrop (Lifecycle.issuedDrops e ev)
             (WaterEngine.waterSim e)
     end.
Proof.
  intros e. pose proof (invariant_run evs) as Hinv. fold e in Hinv.
  split.
  - intros d Hd.
    destruct ev as [ray | ray | | | delta | b | b | v | v | v | v];
      cbn [Lifecycle.issuedDrops] in Hd; try contradiction.
    + destruct (WaterEngine.sphereHit ray); [contradiction|]. cbv zeta in Hd.
      destruct (WaterEngine.inPool _) eqn:Hin; [|contradiction].
      destruct Hd as [<- | []]. cbn [WaterEngine.drop_center].
      apply inPool_iff. exact Hin.
    + destruct (WaterEngine.isDraggingSphere e); [contradiction|].
      destruct (WaterEngine.sphereHit ray); [contradiction|]. cbv zeta in Hd.
      destruct (WaterEngine.outOfPool _) eqn:Hout; [contradiction|].
      destruct (WaterEngine.lastWaterInteractionPoint e) as [last|] eqn:Hl;
        [|contradiction].
      eapply trailDrops_inside; [| | exact Hd].
      * apply (More.inv_last e Hinv). exact Hl.
      * apply outOfPool_iff. exact Hout.
    + destruct (WaterEngine.isPaused e); [contradiction|].
      apply (windDrops_inside e _ d Hd).
  - destruct ev as [ray | ray | | | delta | b | b | v | v | v | v];
      cbn [Lifecycle.handle Lifecycle.issuedDrops]; try reflexivity.
    + unfold WaterEngine.onPointerDown.
      destruct (WaterEngine.sphereHit ray); [reflexivity|]. cbv zeta.
      destruct (WaterEngine.inPool _); reflexivity.
    + unfold WaterEngine.onPointerMove.
      destruct (WaterEngine.isDraggingSphere e); [reflexivity|].
      destruct (WaterEngine.sphereHit ray); [reflexivity|]. cbv zeta.
      destruct (WaterEngine.outOfPool _); [reflexivity|].
      destruct (WaterEngine.lastWaterInteractionPoint e); reflexivity.
    + intros Hp. rewrite Hp. split.
      * apply animate_unpaused. exact Hp.
      * reflexivity.
Qed.

End EngineFrames.

(** ** The drag trail *)

Lemma distance_scaled (a b n : R) :
  0 < n -> sqrt ((a / n) ^ 2 + (b / n) ^ 2) = sqrt (a ^ 2 + b ^ 2) / n.
Proof.
  intros Hn.
  replace ((a / n) ^ 2 + (b / n) ^ 2) with ((a ^ 2 + b ^ 2) / (n * n))
    by (field; lra).
  rewrite sqrt_div_alt by nra. rewrite sqrt_square by lra. reflexivity.
Qed.

(** X14.  The stamps of a trail are evenly spaced and leave no gap wider
    than 0.015: from each stamp to the next, and from the last stamp to the
    cursor, the distance is [dist / segments <= 0.015]. *)
Theorem trail_spacing (last cur : vec2) (k : nat) :
  let dist := Spec.distance last cur in
  let n := WaterEngine.trailSegments (WaterEngine.trailDist last cur) in
  (k < n)%nat ->
  Spec.distance (THREE.lerp2 last cur (INR k / INR n))
                (THREE.lerp2 last cur (INR (k + 1) / INR n))
  = dist / INR n
  /\ dist / INR n <= 0.015
  /\ THREE.lerp2 last cur (INR n / INR n) = cur.
Proof.
  intros dist n Hk.
  assert (En : n = WaterEngine.trailSegments dist)
    by (unfold n, dist; now rewrite trailDist_distance).
  assert (Hn : 0 < INR n) by (apply lt_0_INR; lia).
  split; [|split].
  - unfold Spec.distance at 1, THREE.lerp2; cbn [v2x v2y].
    rewrite plus_INR. simpl (INR 1).
    replace (v2x last + (v2x cur - v2x last) * (INR k / INR n)
             - (v2x last + (v2x cur - v2x last) * ((INR k + 1) / INR n)))
      with ((v2x last - v2x cur) / INR n) by (field; lra).
    replace (v2y last + (v2y cur - v2y last) * (INR k / INR n)
             - (v2y last + (v2y cur - v2y last) * ((INR k + 1) / INR n)))
      with ((v2y last - v2y cur) / INR n) by (field; lra).
    rewrite distance_scaled by exact Hn. reflexivity.
  - assert (Hc : dist / 0.015 <= INR n).
    { rewrite En. unfold WaterEngine.trailSegments. rewrite INR_IZR_INZ.
      rewrite Z2Nat.id by lia.
      pose proof (Zceil_bound (dist / 0.015)) as [_ Hb].
      apply Rle_trans with (IZR (Zceil (dist / 0.015))); [exact Hb|].
      apply IZR_le. lia. }
    apply (Rmult_le_reg_r (INR n)); [exact Hn|].
    unfold Rdiv at 1. rewrite Rmult_assoc, Rinv_l by lra. lra.
  - unfold THREE.lerp2. unfold Rdiv. rewrite Rinv_r by lra.
    destruct cur as [cx cy]; cbn [v2x v2y]. f_equal; ring.
Qed.

(** ** Where the displacement lands *)

(** X15.  In a pool of size 2 the controller and the displacement shader
    agree on where things are: with the sign of [z] flipped the way
    [animate] passes the sphere, a cell's horizontal distance to the sphere
    is the plain distance in the water plane between the point under the
    cursor and the sphere, so the stamp is deepest right under the
    sphere, where it is 0.2. *)
Theorem displacement_footprint (e : WaterEngine.t) (p c : vec3) (radius : R) :
  0 < radius ->
  WaterEngine.poolSize e = 2 ->
  let flipped := mkVec3 (v3x c) (v3y c) (- v3z c) in
  Spec.horizontalDistance (WaterEngine.pointUV e p) flipped
  = sqrt ((v3x p - v3x c) ^ 2 + (v3z p - v3z c) ^ 2)
  /\ Shaders.volumeInSphere radius (WaterEngine.pointUV e c) flipped = 0.2.
Proof.
  intros _ Hs flipped.
  assert (Hd : forall q, Spec.horizontalDistance (WaterEngine.pointUV e q) flipped
                         = sqrt ((v3x q - v3x c) ^ 2 + (v3z q - v3z c) ^ 2)).
  { intros q. unfold Spec.horizontalDistance, WaterEngine.pointUV, flipped.
    rewrite Hs. cbn [v2x v2y v3x v3z]. f_equal.
    replace ((v3x q / 2 + 0.5) * 2 - 1 - v3x c) with (v3x q - v3x c) by lra.
    replace ((0.5 - v3z q / 2) * 2 - 1 - - v3z c) with (- (v3z q - v3z c))
      by lra.
    ring. }
  split; [apply Hd|].
  rewrite volumeInSphere_closed.
  assert (Hl : length2 (sub2 (mkVec2 (v2x (WaterEngine.pointUV e c) * 2 - 1)
                                     (v2y (WaterEngine.pointUV e c) * 2 - 1))
                             (xz flipped)) = 0).
  { unfold length2, sub2, xz, WaterEngine.pointUV, flipped. rewrite Hs.
    cbn [v2x v2y v3x v3z].
    replace ((v3x c / 2 + 0.5) * 2 - 1 - v3x c) with 0 by lra.
    replace ((0.5 - v3z c / 2) * 2 - 1 - - v3z c) with 0 by lra.
    replace (0 * 0 + 0 * 0) with 0 by ring. apply sqrt_0. }
  rewrite Hl. unfold Rdiv. rewrite !Rmult_0_l.
  unfold GLSL.pow. destruct (Req_dec_T 0 0) as [_ | Hne]; [|contradiction].
  rewrite Ropp_0, exp_0. lra.
Qed.

(** ** Bubbles *)

(** X16.  A bubble never rises above the water line: after its update its
    [y] is at most 0 (the pool height being non-negative), and a bubble sent
    back to the floor lands inside the pool when the two random draws are
    in [0, 1). *)
Theorem updateBubble_below_surface (e : WaterEngine.t) (time rx rz : R)
    (b : Lifecycle.Bubble) :
  0 <= WaterEngine.poolHeight e ->
  0.1 <= WaterEngine.poolSize e ->
  0 <= rx < 1 -> 0 <= rz < 1 ->
  let b' := Lifecycle.updateBubble e time rx rz b in
  v3y (Lifecycle.bubble_position b') <= 0
  /\ (0 < v3y (Lifecycle.bubble_position b) + Lifecycle.bubble_velocity b ->
      v3y (Lifecycle.bubble_position b') = - WaterEngine.poolHeight e
      /\ Rabs (v3x (Lifecycle.bubble_position b'))
         <= (WaterEngine.poolSize e - 0.1) / 2
      /\ Rabs (v3z (Lifecycle.bubble_position b'))
         <= (WaterEngine.poolSize e - 0.1) / 2).
Proof.
  intros Hh Hs Hrx Hrz b'. unfold b', Lifecycle.updateBubble. cbv zeta.
  destruct (Rlt_dec 0 _) as [Hup | Hdown];
    cbn [Lifecycle.bubble_position v3x v3y v3z].
  - split; [lra|]. intros _. split; [reflexivity|].
    split; apply Rabs_le; nra.
  - split; [lra|]. intros Hup. contradiction.
Qed.

(** ** The surface shaders *)

Lemma smoothstep_range (edge0 edge1 x : R) :
  0 <= Render.smoothstep edge0 edge1 x <= 1.
Proof.
  unfold Render.smoothstep. cbv zeta.
  set (t := Render.clamp _ 0 1).
  assert (Ht : 0 <= t <= 1).
  { unfold t, Render.clamp, Rmin, Rmax.
    repeat (destruct (Rle_dec _ _)); lra. }
  assert (H1 : 0 <= t * t * (3 - 2 * t))
    by (apply Rmult_le_pos; [apply Rle_0_sqr | lra]).
  assert (H2 : 0 <= (1 - t) * (1 - t) * (1 + 2 * t))
    by (apply Rmult_le_pos; [apply Rle_0_sqr | lra]).
  split; [exact H1|].
  replace (t * t * (3 - 2 * t)) with (1 - (1 - t) * (1 - t) * (1 + 2 * t))
    by ring.
  lra.
Qed.

(** X17.  The drawn surface is pinned at the rim of the pool and follows the
    simulation inside: a vertex on or outside the border of the UV square is
    not moved, a vertex at least 0.05 from the border is raised by exactly
    the height, and in between by a part of it; [x] and [z] never move. *)
Theorem waterVertexShader_rim (info : vec4) (uv : vec2) (position : vec3) :
  let pos := Render.waterVertexShader info uv position in
  v3x pos = v3x position /\ v3z pos = v3z position
  /\ Rabs (v3y pos - v3y position) <= Rabs (chan_r info)
  /\ (v2x uv <= 0 \/ 1 <= v2x uv \/ v2y uv <= 0 \/ 1 <= v2y uv ->
      pos = position)
  /\ (0.05 <= v2x uv <= 0.95 -> 0.05 <= v2y uv <= 0.95 ->
      v3y pos = v3y position + chan_r info).
Proof.
  intros pos. unfold pos, Render.waterVertexShader. cbv zeta.
  cbn [v3x v3y v3z].
  set (d := Rmin (Rmin (v2x uv) (1 - v2x uv)) (Rmin (v2y uv) (1 - v2y uv))).
  split; [reflexivity|]. split; [reflexivity|]. split; [|split].
  - pose proof (smoothstep_range 0 0.05 d) as Hs.
    replace (v3y position + chan_r info * Render.smoothstep 0 0.05 d
             - v3y position)
      with (chan_r info * Render.smoothstep 0 0.05 d) by ring.
    rewrite Rabs_mult, (Rabs_pos_eq (Render.smoothstep 0 0.05 d)) by lra.
    pose proof (Rabs_pos (chan_r info)). nra.
  - intros Hb.
    assert (Hd : d <= 0).
    { unfold d, Rmin. repeat (destruct (Rle_dec _ _)); lra. }
    assert (Hz : Render.smoothstep 0 0.05 d = 0).
    { unfold Render.smoothstep, Render.clamp. cbv zeta.
      assert ((d - 0) / (0.05 - 0) <= 0) by (unfold Rdiv; nra).
      rewrite Rmax_right by lra. rewrite Rmin_left by lra. ring. }
    rewrite Hz. destruct position as [px py pz]; cbn [v3x v3y v3z].
    f_equal. ring.
  - intros Hx Hy.
    assert (Hd : 0.05 <= d).
    { unfold d, Rmin. repeat (destruct (Rle_dec _ _)); lra. }
    assert (Hz : Render.smoothstep 0 0.05 d = 1).
    { unfold Render.smoothstep, Render.clamp. cbv zeta.
      assert (1 <= (d - 0) / (0.05 - 0)) by (unfold Rdiv; nra).
      rewrite Rmax_left by lra. rewrite Rmin_right by lra. ring. }
    rewrite Hz. ring.
Qed.

Lemma dot3_zero (v : vec3) : Render.dot3 v v = 0 -> v = mkVec3 0 0 0.
Proof.
  destruct v as [x y z]. unfold Render.dot3; cbn [v3x v3y v3z]. intros H.
  assert (x = 0) by nra. assert (y = 0) by nra. assert (z = 0) by nra.
  subst. reflexivity.
Qed.

(** X18.  When [intersectSphere] reports a hit (a value other than the
    1.0e6 it returns for a miss), the value is positive, the point it names
    on the ray lies on the sphere, and no point of the line nearer to the
    origin side does: it is the entry point.  The division it makes is never
    by zero. *)
Theorem intersectSphere_hit (origin ray center : vec3) (radius : R) :
  let t := Render.intersectSphere origin ray center radius in
  t <> Render.farAway ->
  0 < t
  /\ 0 < Render.dot3 ray ray
  /\ (let d := Render.sub3 (Render.along origin ray t) center in
      Render.dot3 d d = radius * radius)
  /\ (forall s : R,
        (let d := Render.sub3 (Render.along origin ray s) center in
         Render.dot3 d d = radius * radius) -> t <= s).
Proof.
  intros t. unfold t, Render.intersectSphere. cbv zeta.
  set (toS := Render.sub3 origin center).
  set (a := Render.dot3 ray ray).
  set (b := 2 * Render.dot3 toS ray).
  set (c := Render.dot3 toS toS - radius * radius).
  destruct (Rlt_dec 0 (b * b - 4 * a * c)) as [HD | HD]; [|intros H; now elim H].
  set (D := b * b - 4 * a * c) in *.
  destruct (Rlt_dec 0 ((- b - sqrt D) / (2 * a))) as [Ht | Ht];
    [|intros H; now elim H].
  intros _. set (t0 := (- b - sqrt D) / (2 * a)) in *.
  assert (Ha0 : 0 <= a).
  { unfold a, Render.dot3. nra. }
  assert (Ha : 0 < a).
  { destruct Ha0 as [Hpos | Hz]; [exact Hpos|]. exfalso.
    symmetry in Hz. apply dot3_zero in Hz.
    assert (Hb : b = 0).
    { unfold b, Render.dot3. rewrite Hz. cbn [v3x v3y v3z]. ring. }
    unfold D in HD. rewrite Hb in HD.
    assert (Ha' : a = 0) by (unfold a; rewrite Hz; unfold Render.dot3; cbn; ring).
    rewrite Ha' in HD. lra. }
  assert (Hs : sqrt D * sqrt D = D) by (apply sqrt_sqrt; lra).
  assert (Hs0 : 0 < sqrt D) by (apply sqrt_lt_R0; exact HD).
  assert (Ht0 : 2 * a * t0 + b = - sqrt D).
  { unfold t0. field. lra. }
  assert (Hquad : forall s,
             (let d := Render.sub3 (Render.along origin ray s) center in
              Render.dot3 d d) - radius * radius = a * s * s + b * s + c).
  { intros s. cbv zeta. unfold a, b, c, toS, Render.dot3, Render.sub3,
      Render.along, THREE.add3, THREE.multiplyScalar.
    cbn [v3x v3y v3z]. ring. }
  split; [exact Ht|]. split; [exact Ha|]. split.
  - pose proof (Hquad t0) as Hq. cbv zeta in Hq |- *.
    assert (a * t0 * t0 + b * t0 + c = 0).
    { assert (4 * a * (a * t0 * t0 + b * t0 + c) = 0).
      { replace (4 * a * (a * t0 * t0 + b * t0 + c))
          with ((2 * a * t0 + b) * (2 * a * t0 + b) - D) by (unfold D; ring).
        rewrite Ht0. lra. }
      nra. }
    lra.
  - intros s Hon. pose proof (Hquad s) as Hq. cbv zeta in Hq, Hon.
    assert (Hroot : a * s * s + b * s + c = 0) by lra.
    assert (Hsq : (2 * a * s + b) * (2 * a * s + b) = D)
      by (unfold D; nra).
    destruct (Rle_dec t0 s) as [Hle | Hgt]; [exact Hle|]. exfalso.
    assert (2 * a * s + b < - sqrt D) by nra.
    nra.
Qed.

(** One test of [intersectOpenPool]: a plane is tried or not, and its
    parameter replaces [t] when it is positive and smaller. *)
Lemma pool_stage (t cand : R) (tried : bool) :
  0 < t ->
  let t' := if tried then (if Rlt_dec 0 cand then Rmin t cand else t) else t in
  0 < t' <= t
  /\ (tried = true -> 0 < cand -> t' <= cand)
  /\ (t' = t \/ (tried = true /\ 0 < cand /\ t' = cand)).
Proof.
  intros Ht. destruct tried; cbv zeta.
  - destruct (Rlt_dec 0 cand) as [Hc | Hc].
    + unfold Rmin. destruct (Rle_dec t cand) as [Hle | Hgt].
      * split; [lra|]. split; [intros _ _; lra | left; reflexivity].
      * split; [lra|]. split; [intros _ _; lra|].
        right. split; [reflexivity|]. split; [exact Hc | reflexivity].
    + split; [lra|]. split; [intros _ H; lra | left; reflexivity].
  - split; [lra|]. split; [intros H; discriminate | left; reflexivity].
Qed.

Lemma Rabs_gt_small (x : R) :
  1 / 100000 < Rabs x -> x < 0 \/ 0 < x.
Proof.
  intros H. destruct (Rle_dec 0 x) as [Hp | Hn]; [|left; lra].
  rewrite Rabs_pos_eq in H by exact Hp. right. lra.
Qed.

(** X19.  From a point strictly inside the open pool, the value
    [intersectOpenPool] returns is positive and at most 1.0e6; the point it
    names on the ray is not below the floor, and not beyond the walls of an
    axis along which the ray moves by more than 1.0e-5; and when the value
    is below 1.0e6 that point lies on the floor or on a wall. *)
Theorem intersectOpenPool_inside (origin ray : vec3) :
  -1 < v3x origin < 1 -> -1 < v3z origin < 1 -> -1 < v3y origin ->
  let t := Render.intersectOpenPool origin ray in
  let p := Render.along origin ray t in
  0 < t <= Render.farAway
  /\ -1 <= v3y p
  /\ (1 / 100000 < Rabs (v3x ray) -> -1 <= v3x p <= 1)
  /\ (1 / 100000 < Rabs (v3z ray) -> -1 <= v3z p <= 1)
  /\ (t < Render.farAway ->
      v3y p = -1 \/ Rabs (v3x p) = 1 \/ Rabs (v3z p) = 1).
Proof.
  intros Hx Hz Hy t p.
  destruct origin as [ox oy oz], ray as [rx ry rz]. cbn [v3x v3y v3z] in *.
  set (tf := (- 1 - oy) / ry).
  set (tx := (Render.sign rx * 2 / 2 - ox) / rx).
  set (tz := (Render.sign rz * 2 / 2 - oz) / rz).
  set (bf := if Rlt_dec ry 0 then true else false).
  set (bx := if Rlt_dec (1 / 100000) (Rabs rx) then true else false).
  set (bz := if Rlt_dec (1 / 100000) (Rabs rz) then true else false).
  assert (Hfar : 0 < Render.farAway) by (unfold Render.farAway; lra).
  pose proof (pool_stage Render.farAway tf bf Hfar) as S1. cbv zeta in S1.
  set (t1 := if bf then (if Rlt_dec 0 tf then Rmin Render.farAway tf
                         else Render.farAway) else Render.farAway) in *.
  destruct S1 as ([P1 L1] & U1 & E1).
  pose proof (pool_stage t1 tx bx P1) as S2. cbv zeta in S2.
  set (t2 := if bx then (if Rlt_dec 0 tx then Rmin t1 tx else t1) else t1) in *.
  destruct S2 as ([P2 L2] & U2 & E2).
  pose proof (pool_stage t2 tz bz P2) as S3. cbv zeta in S3.
  set (t3 := if bz then (if Rlt_dec 0 tz then Rmin t2 tz else t2) else t2) in *.
  destruct S3 as ([P3 L3] & U3 & E3).
  assert (Et : t = t3).
  { unfold t, Render.intersectOpenPool, t3, t2, t1, bf, bx, bz, tf, tx, tz,
      Render.poolHeight, Render.poolSize.
    cbv zeta. cbn [v3x v3y v3z].
    destruct (Rlt_dec ry 0), (Rlt_dec (1 / 100000) (Rabs rx)),
      (Rlt_dec (1 / 100000) (Rabs rz)); reflexivity. }
  unfold p, Render.along, THREE.add3, THREE.multiplyScalar.
  cbn [v3x v3y v3z]. rewrite Et. clear Et.
  (* what each tested plane gives *)
  assert (Ff : bf = true -> tf * ry = - 1 - oy /\ 0 < tf /\ ry < 0).
  { unfold bf. destruct (Rlt_dec ry 0) as [Hr | Hr]; [|discriminate].
    intros _. assert (E : tf * ry = - 1 - oy) by (unfold tf; field; lra).
    repeat split; try assumption. nra. }
  assert (Fx : bx = true ->
               (0 < rx /\ tx * rx = 1 - ox /\ 0 < tx)
               \/ (rx < 0 /\ tx * rx = - 1 - ox /\ 0 < tx)).
  { unfold bx. destruct (Rlt_dec (1 / 100000) (Rabs rx)) as [Hr | Hr];
      [|discriminate]. intros _.
    destruct (Rabs_gt_small rx Hr) as [Hneg | Hpos].
    - right. assert (E : tx * rx = - 1 - ox).
      { unfold tx, Render.sign. destruct (Rlt_dec 0 rx); [lra|].
        destruct (Rlt_dec rx 0); [|lra]. field. lra. }
      repeat split; try assumption. nra.
    - left. assert (E : tx * rx = 1 - ox).
      { unfold tx, Render.sign. destruct (Rlt_dec 0 rx); [|lra]. field. lra. }
      repeat split; try assumption. nra. }
  assert (Fz : bz = true ->
               (0 < rz /\ tz * rz = 1 - oz /\ 0 < tz)
               \/ (rz < 0 /\ tz * rz = - 1 - oz /\ 0 < tz)).
  { unfold bz. destruct (Rlt_dec (1 / 100000) (Rabs rz)) as [Hr | Hr];
      [|discriminate]. intros _.
    destruct (Rabs_gt_small rz Hr) as [Hneg | Hpos].
    - right. assert (E : tz * rz = - 1 - oz).
      { unfold tz, Render.sign. destruct (Rlt_dec 0 rz); [lra|].
        destruct (Rlt_dec rz 0); [|lra]. field. lra. }
      repeat split; try assumption. nra.
    - left. assert (E : tz * rz = 1 - oz).
      { unfold tz, Render.sign. destruct (Rlt_dec 0 rz); [|lra]. field. lra. }
      repeat split; try assumption. nra. }
  split; [lra|]. split; [|split; [|split]].
  - (* floor *)
    destruct (Rlt_dec ry 0) as [Hr | Hr].
    + assert (Hb : bf = true) by (unfold bf; destruct (Rlt_dec ry 0); [reflexivity|lra]).
      destruct (Ff Hb) as (E & Hpos & _).
      assert (t3 <= tf) by (specialize (U1 Hb Hpos); lra).
      nra.
    + nra.
  - intros Hr.
    assert (Hb : bx = true)
      by (unfold bx; destruct (Rlt_dec (1 / 100000) (Rabs rx)); [reflexivity|lra]).
    destruct (Fx Hb) as [(Hs & E & Hpos) | (Hs & E & Hpos)];
      assert (t3 <= tx) by (specialize (U2 Hb Hpos); lra); nra.
  - intros Hr.
    assert (Hb : bz = true)
      by (unfold bz; destruct (Rlt_dec (1 / 100000) (Rabs rz)); [reflexivity|lra]).
    destruct (Fz Hb) as [(Hs & E & Hpos) | (Hs & E & Hpos)];
      assert (t3 <= tz) by (specialize (U3 Hb Hpos); lra); nra.
  - intros Hlt.
    destruct E3 as [E3 | (Hb & _ & E3)].
    + destruct E2 as [E2 | (Hb & _ & E2)].
      * destruct E1 as [E1 | (Hb & _ & E1)]; [lra|].
        left. destruct (Ff Hb) as (E & _ & _). rewrite E3, E2, E1. lra.
      * right; left. rewrite E3, E2.
        destruct (Fx Hb) as [(_ & E & _) | (_ & E & _)].
        -- replace (ox + rx * tx) with 1 by lra. apply Rabs_R1.
        -- replace (ox + rx * tx) with (-1) by lra.
           rewrite Rabs_left by lra. lra.
    + right; right. rewrite E3.
      destruct (Fz Hb) as [(_ & E & _) | (_ & E & _)].
      * replace (oz + rz * tz) with 1 by lra. apply Rabs_R1.
      * replace (oz + rz * tz) with (-1) by lra.
        rewrite Rabs_left by lra. lra.
Qed.

(** ** Floating windows and the log *)

Lemma maxZ_upper (prev : MetaPrototype.Windows) (j : MetaPrototype.WindowId) :
  (MetaPrototype.zIndex (prev j) <= MetaPrototype.maxZ prev)%Z.
Proof. unfold MetaPrototype.maxZ. destruct j; lia. Qed.

Lemma setWindow_same (prev : MetaPrototype.Windows) (i : MetaPrototype.WindowId)
    (w : MetaPrototype.WindowState) :
  MetaPrototype.setWindow prev i w i = w.
Proof. unfold MetaPrototype.setWindow. destruct i; reflexivity. Qed.

Lemma setWindow_other (prev : MetaPrototype.Windows)
    (i j : MetaPrototype.WindowId) (w : MetaPrototype.WindowState) :
  i <> j -> MetaPrototype.setWindow prev i w j = prev j.
Proof.
  intros H. unfold MetaPrototype.setWindow.
  destruct i, j; try reflexivity; now elim H.
Qed.

(** X20.  [bringToFront i] puts window [i] on top: afterwards no window has a
    larger [zIndex]; only the [zIndex] of [i] can change, and doing it again
    changes nothing. *)
Theorem bringToFront_top (i j : MetaPrototype.WindowId)
    (prev : MetaPrototype.Windows) :
  let next := MetaPrototype.bringToFront i prev in
  (MetaPrototype.zIndex (next j) <= MetaPrototype.zIndex (next i))%Z
  /\ (i <> j -> next j = prev j)
  /\ next i = MetaPrototype.withZIndex (prev i) (MetaPrototype.zIndex (next i))
  /\ MetaPrototype.bringToFront i next j = next j.
Proof.
  intros next.
  assert (Htop : forall k,
             (MetaPrototype.zIndex (next k) <= MetaPrototype.zIndex (next i))%Z).
  { intros k. unfold next, MetaPrototype.bringToFront.
    destruct (Z.eqb_spec (MetaPrototype.zIndex (prev i))
                         (MetaPrototype.maxZ prev)) as [E | NE].
    - rewrite E. apply maxZ_upper.
    - rewrite setWindow_same. cbn [MetaPrototype.withZIndex MetaPrototype.zIndex].
      pose proof (maxZ_upper prev k).
      destruct i, k; unfold MetaPrototype.setWindow;
        cbn [MetaPrototype.WindowId_eqb MetaPrototype.withZIndex
             MetaPrototype.zIndex]; lia. }
  split; [apply Htop|]. split; [|split].
  - intros Hij. unfold next, MetaPrototype.bringToFront.
    destruct (Z.eqb _ _); [reflexivity|]. now apply setWindow_other.
  - unfold next, MetaPrototype.bringToFront.
    destruct (Z.eqb _ _).
    + destruct (prev i); reflexivity.
    + rewrite setWindow_same. reflexivity.
  - unfold MetaPrototype.bringToFront at 1.
    assert (E : MetaPrototype.zIndex (next i) = MetaPrototype.maxZ next).
    { apply Z.le_antisymm; [apply maxZ_upper|].
      unfold MetaPrototype.maxZ.
      pose proof (Htop MetaPrototype.control).
      pose proof (Htop MetaPrototype.code).
      pose proof (Htop MetaPrototype.console). lia. }
    rewrite E, Z.eqb_refl. reflexivity.
Qed.

(** X21.  [toggleWindow i] flips [isOpen] of window [i] and touches no other
    window; a window it opens ends strictly above every other window; and
    toggling twice gives back the [isOpen] it started from. *)
Theorem toggleWindow_opens_on_top (i j : MetaPrototype.WindowId)
    (prev : MetaPrototype.Windows) :
  let next := MetaPrototype.toggleWindow i prev in
  MetaPrototype.isOpen (next i) = negb (MetaPrototype.isOpen (prev i))
  /\ (i <> j -> next j = prev j)
  /\ (i <> j -> MetaPrototype.isOpen (next i) = true ->
      (MetaPrototype.zIndex (next j) < MetaPrototype.zIndex (next i))%Z)
  /\ MetaPrototype.isOpen (MetaPrototype.toggleWindow i next j)
     = MetaPrototype.isOpen (prev j).
Proof.
  intros next.
  assert (Hopen : forall q,
            MetaPrototype.isOpen (MetaPrototype.toggleWindow i q i)
            = negb (MetaPrototype.isOpen (q i))).
  { intros q. unfold MetaPrototype.toggleWindow. cbv zeta.
    destruct (MetaPrototype.isOpen (q i)); cbn [negb];
      rewrite !setWindow_same; reflexivity. }
  assert (Hother : forall q k, i <> k -> MetaPrototype.toggleWindow i q k = q k).
  { intros q k Hk. unfold MetaPrototype.toggleWindow. cbv zeta.
    destruct (negb (MetaPrototype.isOpen (q i)));
      rewrite !setWindow_other by exact Hk; reflexivity. }
  split; [apply Hopen|]. split; [apply Hother|]. split.
  - intros Hij Ho. unfold next in Ho |- *. rewrite (Hother prev j Hij).
    unfold MetaPrototype.toggleWindow in Ho |- *. cbv zeta in Ho |- *.
    destruct (negb (MetaPrototype.isOpen (prev i))) eqn:E.
    + rewrite !setWindow_same.
      cbn [MetaPrototype.withZIndex MetaPrototype.zIndex].
      pose proof (maxZ_upper prev j). lia.
    + rewrite setWindow_same in Ho.
      cbn [MetaPrototype.withIsOpen MetaPrototype.isOpen] in Ho. discriminate.
  - assert (Hdec : i = j \/ i <> j) by (destruct i, j; auto; right; discriminate).
    destruct Hdec as [<- | Hij].
    + rewrite Hopen. unfold next. rewrite Hopen. apply negb_involutive.
    + unfold next. rewrite !Hother by exact Hij. reflexivity.
Qed.

Lemma sliceLast_length {A : Type} (n : nat) (l : list A) :
  length (MetaPrototype.sliceLast n l) = Nat.min n (length l).
Proof. unfold MetaPrototype.sliceLast. rewrite length_skipn. lia. Qed.

(** X22.  The log keeps at most its 50 newest entries: after [logEvent] the
    new entry is the last one, the list is no longer than 50, a shorter log
    only grows by the entry, and a full one drops exactly its oldest
    entries. *)
Theorem logEvent_keeps_newest (entry : MetaPrototype.LogEntry)
    (prev : list MetaPrototype.LogEntry) :
  let logs := MetaPrototype.logEvent entry prev in
  (length logs <= 50)%nat
  /\ last logs entry = entry
  /\ ((length prev < 50)%nat -> logs = prev ++ [entry])
  /\ logs = skipn (length prev - 49) prev ++ [entry].
Proof.
  intros logs. unfold logs, MetaPrototype.logEvent.
  assert (Hform : MetaPrototype.sliceLast 50 (prev ++ [entry])
                  = skipn (length prev - 49) prev ++ [entry]).
  { unfold MetaPrototype.sliceLast. rewrite length_app. cbn [length].
    replace (length prev + 1 - 50)%nat with (length prev - 49)%nat by lia.
    rewrite skipn_app.
    replace (length prev - 49 - length prev)%nat with 0%nat by lia.
    reflexivity. }
  split; [|split; [|split]].
  - rewrite sliceLast_length. lia.
  - rewrite Hform. apply last_last.
  - intros Hshort. rewrite Hform.
    replace (length prev - 49)%nat with 0%nat by lia. reflexivity.
  - exact Hform.
Qed.


(** ** The further properties at concrete inputs *)

Lemma rippledSim_inGrid (i j : nat) :
  (i < 128)%nat -> (j < 128)%nat ->
  Grid.inGrid
    (GPGPUWater.addDrop (S := linearSampler) 0.5 0.5 0.05 0.1 Examples.restSim)
    i j.
Proof. intros Hi Hj. split; assumption. Qed.

Lemma step_damping_zero_witness :
  GPGPUWater.velocity
    (GPGPUWater.step (S := linearSampler)
       (GPGPUWater.setDamping 0
          (GPGPUWater.addDrop (S := linearSampler) 0.5 0.5 0.05 0.1
             Examples.restSim))) 64 64 = 0.
Proof.
  refine (proj1 (step_damping_zero (S := linearSampler) _ 64 64 _)).
  apply rippledSim_inGrid; lia.
Defined.

Lemma addDrop_bounded_witness :
  Rabs (GPGPUWater.height
          (GPGPUWater.addDrop (S := linearSampler) 0.5 0.5 0.05 0.1
             Examples.restSim) 64 64
        - GPGPUWater.height Examples.restSim 64 64) <= Rabs 0.1.
Proof.
  refine (proj1 (addDrop_bounded (S := linearSampler) 0.5 0.5 0.05 0.1
                   Examples.restSim 64 64 _ _)).
  - lra.
  - apply restSim_inGrid; lia.
Defined.

Lemma injections_superpose_witness :
  let ds := [WaterEngine.mkDrop (mkVec2 0.5 0.5) 0.03 0.03;
             WaterEngine.mkDrop (mkVec2 0.25 0.75) 0.08 (-0.01)] in
  GPGPUWater.height
    (fold_left (WaterEngine.applyDrop (S := linearSampler)) ds Examples.restSim)
    64 64
  = GPGPUWater.height Examples.restSim 64 64
    + More.totalDrop (GPGPUWater.cellUV Examples.restSim 64 64) ds.
Proof.
  intros ds.
  refine (proj1 (injections_superpose (S := linearSampler) ds Examples.restSim
                   64 64 _ _)).
  - repeat constructor; simpl; lra.
  - apply restSim_inGrid; lia.
Defined.

Lemma updateNormals_slopes_witness :
  let w := GPGPUWater.addDrop (S := linearSampler) 0.5 0.5 0.05 0.1
             Examples.restSim in
  GPGPUWater.normalX (GPGPUWater.updateNormals (S := linearSampler) w) 64 64
  = - More.slopeX (S := linearSampler) w 64 64
    / More.slopeNorm (S := linearSampler) w 64 64.
Proof.
  intros w.
  refine (proj1 (updateNormals_slopes (S := linearSampler) w 64 64 _)).
  apply rippledSim_inGrid; lia.
Defined.

Lemma updateNormals_flat_witness :
  GPGPUWater.normalX
    (GPGPUWater.updateNormals (S := nearestSampler) Examples.restSim) 3 4 = 0.
Proof.
  refine (proj1 (updateNormals_flat (S := nearestSampler) Examples.restSim 0
                   3 4 _ _)).
  - intros a b _. reflexivity.
  - apply restSim_inGrid; lia.
Defined.

Lemma simNormal_roundtrip_witness :
  let w := GPGPUWater.addDrop (S := linearSampler) 0.5 0.5 0.05 0.1
             Examples.restSim in
  length3 (Render.simNormal
             (GPGPUWater.cell
                (GPGPUWater.updateNormals (S := linearSampler) w) 64 64)) = 1.
Proof.
  intros w.
  refine (proj2 (simNormal_roundtrip (S := linearSampler) w 64 64 _)).
  apply rippledSim_inGrid; lia.
Defined.

Lemma trail_spacing_witness :
  Spec.distance (mkVec2 0.1 0.1) (mkVec2 0.1 0.25)
  / INR (WaterEngine.trailSegments
           (WaterEngine.trailDist (mkVec2 0.1 0.1) (mkVec2 0.1 0.25)))
  <= 0.015.
Proof.
  refine (proj1 (proj2 (trail_spacing (mkVec2 0.1 0.1) (mkVec2 0.1 0.25) 0 _))).
  pose proof (trailSegments_pos
                (WaterEngine.trailDist (mkVec2 0.1 0.1) (mkVec2 0.1 0.25))).
  lia.
Defined.

Lemma displacement_footprint_witness :
  Shaders.volumeInSphere 0.25
    (WaterEngine.pointUV Lifecycle.create (mkVec3 (-0.3) (-0.1) 0.3))
    (mkVec3 (-0.3) (-0.1) (Ropp 0.3)) = 0.2.
Proof.
  refine (proj2 (displacement_footprint Lifecycle.create (mkVec3 0 0 0)
                   (mkVec3 (-0.3) (-0.1) 0.3) 0.25 _ _)).
  - lra.
  - reflexivity.
Defined.

Lemma updateBubble_below_surface_witness :
  v3y (Lifecycle.bubble_position
         (Lifecycle.updateBubble Lifecycle.create 1 0.25 0.75
            (Lifecycle.mkBubble (mkVec3 0.2 (-0.001) 0.1) 0.004 0.7 1)))
  <= 0.
Proof.
  refine (proj1 (updateBubble_below_surface Lifecycle.create 1 0.25 0.75
                   (Lifecycle.mkBubble (mkVec3 0.2 (-0.001) 0.1) 0.004 0.7 1)
                   _ _ _ _)); simpl; lra.
Defined.

Lemma intersectSphere_example :
  Render.intersectSphere (mkVec3 0 2 0) (mkVec3 0 (-1) 0) (mkVec3 0 0 0) 1 = 1.
Proof.
  unfold Render.intersectSphere, Render.dot3, Render.sub3. cbv zeta.
  cbn [v3x v3y v3z].
  set (D := _ * _ - 4 * _ * _).
  assert (HD : D = 2 * 2) by (unfold D; lra).
  rewrite HD, sqrt_square by lra.
  destruct (Rlt_dec 0 (2 * 2)) as [_ | H]; [|lra].
  match goal with |- (if Rlt_dec 0 ?t then _ else _) = _ =>
    assert (Ht : t = 1) by lra; rewrite Ht end.
  destruct (Rlt_dec 0 1); [reflexivity | lra].
Qed.

Lemma intersectSphere_hit_witness :
  0 < Render.intersectSphere (mkVec3 0 2 0) (mkVec3 0 (-1) 0) (mkVec3 0 0 0) 1.
Proof.
  refine (proj1 (intersectSphere_hit (mkVec3 0 2 0) (mkVec3 0 (-1) 0)
                   (mkVec3 0 0 0) 1 _)).
  rewrite intersectSphere_example. unfold Render.farAway. lra.
Defined.

Lemma intersectOpenPool_inside_witness :
  -1 <= v3y (Render.along (mkVec3 0.2 0 (-0.3)) (mkVec3 0.3 (-1) 0.1)
               (Render.intersectOpenPool (mkVec3 0.2 0 (-0.3))
                  (mkVec3 0.3 (-1) 0.1))).
Proof.
  refine (proj1 (proj2 (intersectOpenPool_inside (mkVec3 0.2 0 (-0.3))
                          (mkVec3 0.3 (-1) 0.1) _ _ _))); simpl; lra.
Defined.
